(** * The OCI runtime executor: execution/executors/oci/oci.go

    A shallow embedding of package [oci] and of what it touches: paths
    (path/filepath), the file system with the ledger below the runtime
    root, the runc driver, and the in-memory container and process records
    of package [execution].  A call of the executor is a function from the
    world (ledger, calls made to the driver, signals sent) to a result, or
    a panic, and the world after it.

    Reading of the source.  oci.go is a draft: a few identifiers do not
    resolve as they are spelled.  They are read as follows, and every
    definition below says so where it matters.
    - [pidfile] (Create, StartProcess) is the local [pidFile] declared just
      above it; [runc.ReadPifFile] is [runc.ReadPidFile]; the field [Runc:]
      in [New] is the field [runc].
    - [container] in the last statement of StartProcess is the parameter
      [c], the only container in scope there.
    - [err := r.runc.ExecProcess(...)] in StartProcess has no new variable
      on its left: it is the assignment to the [err] declared at the top of
      the function, the one that the deferred closure reads.
    - [initDir = container.StateDir().NewProcess()] in Create takes the
      directory of the two results that NewProcess has in StartProcess;
      the error has no place to go.
    - [newProcess(pid)] in StartProcess gets, like its two other call
      sites, the base name of the slot directory as the process id.
    - [os.Signal] in the call of [syscall.Kill] is the parameter [sig].
    - [id] in [filepath.Join(processStateDir, id)] of StartProcess is bound
      nowhere in the function or the file.  It is not a misspelling of a
      name in scope, and no value in scope is the only one it can stand
      for, so it is kept as what it is, an identifier, and is a parameter
      of [StartProcess].
    - [d] in [load] is used as a path ([filepath.Join(d, "pid")],
      [filepath.Base(d)]): the entries of [ioutil.ReadDir] are taken as the
      paths of the entries. *)

From Stdlib Require Import ZArith Ascii DecimalString.
From stdpp Require Import base decidable option list sorting strings gmap.

(** ** Go values *)

(** A pointer is [nil] or points to a value.  A function that updates the
    pointee hands back the pointee's new value. *)
Definition ptr (A : Type) : Type := option A.
Definition nil_ptr {A : Type} : ptr A := None.

(** Error values.  [errors_New] stands for a package-level error variable
    (made once, compared by identity), [fmt_Errorf] for an error built at
    the place where it is returned: it carries a text and nothing else.
    The other constructors are the errors of the operating system, of
    [strconv] and of the driver. *)
Inductive error : Type :=
  | errors_New (msg : string)
  | fmt_Errorf (msg : string)
  | os_PathError (op path why : string)
  | strconv_NumError (input : string)
  | syscall_Errno (errno : Z)
  | runc_Error (msg : string).

Global Instance error_eq_dec : EqDecision error.
Proof. solve_decision. Defined.

(** oci.go, line 15. *)
Definition ErrRootEmpty : error :=
  errors_New "oci: runtime root cannot be an empty string".

(** An error is ad hoc when it was built by [fmt.Errorf] where it is
    returned: a caller can tell it from other errors only by its text. *)
Definition ad_hoc (e : error) : bool :=
  match e with fmt_Errorf _ => true | _ => false end.

(** ** Paths (path/filepath) *)

Definition is_sep (c : ascii) : bool := Ascii.eqb c "/".

Fixpoint has_sep (s : string) : bool :=
  match s with
  | EmptyString => false
  | String c s' => is_sep c || has_sep s'
  end.

(** The elements of a path: what stands between its separators. *)
Fixpoint split_sep (s : string) : list string :=
  match s with
  | EmptyString => [""]
  | String c s' =>
      if is_sep c then "" :: split_sep s'
      else
        match split_sep s' with
        | e :: es => String c e :: es
        | [] => [String c ""]
        end
  end.

Definition rooted (path : string) : bool :=
  match path with
  | String c _ => is_sep c
  | EmptyString => false
  end.

(** One element of the path that [Clean] reads; [acc] holds the elements
    kept so far, the last one first.  Empty elements and "." are dropped;
    ".." drops the element before it, is dropped itself at the root, and
    is kept where there is nothing to drop. *)
Definition clean_step (rt : bool) (acc : list string) (e : string) : list string :=
  if String.eqb e "" || String.eqb e "." then acc
  else if String.eqb e ".." then
    match acc with
    | t :: rest => if String.eqb t ".." then e :: acc else rest
    | [] => if rt then [] else [e]
    end
  else e :: acc.

Definition render (rt : bool) (elems : list string) : string :=
  let out := (if rt then "/" else "") +:+ String.concat "/" elems in
  if String.eqb out "" then "." else out.

(** filepath.Clean *)
Definition Clean (path : string) : string :=
  render (rooted path) (rev (fold_left (clean_step (rooted path)) (split_sep path) [])).

(** filepath.Join: empty elements are ignored, the others are joined by the
    separator, and the result is cleaned; no element, no path. *)
Definition Join (elem : list string) : string :=
  match filter (λ e, e ≠ "") elem with
  | [] => ""
  | l => Clean (String.concat "/" l)
  end.

(** Paths and what [Clean] makes of them (the table of Go's own test). *)
Definition Clean_table : list (string * string) :=
  [ ("", "."); ("abc", "abc"); ("abc/def", "abc/def"); ("a/b/c", "a/b/c"); (".", ".");
    ("..", ".."); ("../..", "../.."); ("../../abc", "../../abc"); ("/abc", "/abc");
    ("/", "/"); ("abc/", "abc"); ("abc/def/", "abc/def"); ("a/b/c/", "a/b/c");
    ("./", "."); ("../", ".."); ("../../", "../.."); ("/abc/", "/abc");
    ("abc//def//ghi", "abc/def/ghi"); ("//abc", "/abc"); ("///abc", "/abc");
    ("//abc//", "/abc"); ("abc//", "abc"); ("abc/./def", "abc/def");
    ("/./abc/def", "/abc/def"); ("abc/.", "abc"); ("abc/def/ghi/../jkl", "abc/def/jkl");
    ("abc/def/../ghi/../jkl", "abc/jkl"); ("abc/def/..", "abc"); ("abc/def/../..", ".");
    ("/abc/def/../..", "/"); ("abc/def/../../..", ".."); ("/abc/def/../../..", "/");
    ("abc/def/../../../ghi/jkl/../../../mno", "../../mno"); ("/../abc", "/abc");
    ("abc/./../def", "def"); ("abc//./../def", "def"); ("abc/../../././../def", "../../def") ].

(** Strip the trailing separators. *)
Fixpoint trim_sep (s : string) : string :=
  match s with
  | EmptyString => ""
  | String c s' =>
      let t := trim_sep s' in
      if is_sep c && String.eqb t "" then "" else String c t
  end.

(** What follows the last separator. *)
Fixpoint last_elem (s : string) : string :=
  match s with
  | EmptyString => ""
  | String c s' =>
      if has_sep s' then last_elem s'
      else if is_sep c then s' else String c s'
  end.

(** filepath.Base. *)
Definition Base (path : string) : string :=
  if String.eqb path "" then "."
  else
    let e := last_elem (trim_sep path) in
    if String.eqb e "" then "/" else e.

(** Up to and including the last separator. *)
Fixpoint dir_part (s : string) : string :=
  match s with
  | EmptyString => ""
  | String c s' => if is_sep c || has_sep s' then String c (dir_part s') else ""
  end.

(** filepath.Dir *)
Definition Dir (path : string) : string := Clean (dir_part path).

(** A name: one path element that [Clean] keeps as it is. *)
Definition is_name (e : string) : bool :=
  negb (String.eqb e "") && negb (has_sep e)
  && negb (String.eqb e ".") && negb (String.eqb e "..").

Definition name (e : string) : Prop := is_name e = true.

(** [p] is [dir] or lies below it. *)
Definition under (dir p : string) : Prop :=
  p = dir ∨ String.prefix (dir +:+ "/") p = true.

Global Instance under_dec dir p : Decision (under dir p).
Proof. unfold under. apply _. Defined.

(** [p] is an entry of the directory [dir]: its base name, joined to
    [dir], gives [p]. *)
Definition entry_of (dir p : string) : bool :=
  is_name (Base p) && String.eqb (Join [dir; Base p]) p.

(** ** The file system *)

Inductive Node : Type :=
  | Directory
  | File (data : string).

Global Instance Node_eq_dec : EqDecision Node.
Proof. solve_decision. Defined.

(** [next] numbers the process slots handed out so far. *)
Record Store : Type := mkStore {
  fs : gmap string Node;
  next : nat
}.

Definition set_fs (f : gmap string Node → gmap string Node) (st : Store) : Store :=
  {| fs := f (fs st); next := next st |}.

Definition exists_path (st : Store) (p : string) : Prop := is_Some (fs st !! p).

(** The directory that [path] lies in is there; "." and "/" always are. *)
Definition parent_exists (path : string) (st : Store) : bool :=
  bool_decide (Dir path = "." ∨ Dir path = "/" ∨ fs st !! Dir path = Some Directory).

(** os.Mkdir *)
Definition os_Mkdir (path : string) (st : Store) : option error * Store :=
  match fs st !! path with
  | Some _ => (Some (os_PathError "mkdir" path "file exists"), st)
  | None =>
      if negb (String.eqb path "") && parent_exists path st
      then (None, set_fs (insert path Directory) st)
      else (Some (os_PathError "mkdir" path "no such file or directory"), st)
  end.

(** os.RemoveAll: removes [path] and what lies below it; a path that does
    not exist is no error. *)
Definition os_RemoveAll (path : string) (st : Store) : option error * Store :=
  (None, set_fs (filter (λ kv, ¬ under path kv.1)) st).

(** What the driver does when it writes a PID file: the file gets its
    contents, where a file can be: in a directory that is there, and not in
    the place of a directory. *)
Definition write_file (path data : string) (st : Store) : Store :=
  match fs st !! path with
  | Some Directory => st
  | _ =>
      if negb (String.eqb path "") && parent_exists path st
      then set_fs (insert path (File data)) st
      else st
  end.

(** ioutil.ReadDir: the entries of [dir], sorted by name (as paths, see the
    reading of [d] above). *)
Definition ioutil_ReadDir (dir : string) (st : Store) : list string * option error :=
  match fs st !! dir with
  | Some Directory =>
      (merge_sort String.le (filter (λ p, entry_of dir p = true) (map_to_list (fs st)).*1), None)
  | Some (File _) => ([], Some (os_PathError "readdirent" dir "not a directory"))
  | None => ([], Some (os_PathError "open" dir "no such file or directory"))
  end.

(** strconv.Atoi on the digits of a PID file. *)
Definition digit_of (c : ascii) : option Z :=
  let n := Z.of_nat (nat_of_ascii c) in
  if bool_decide (48 ≤ n ≤ 57)%Z then Some (n - 48)%Z else None.

Fixpoint digits (s : string) (acc : Z) : option Z :=
  match s with
  | EmptyString => Some acc
  | String c s' =>
      match digit_of c with
      | Some d => digits s' (10 * acc + d)%Z
      | None => None
      end
  end.

Definition Atoi (s : string) : option Z :=
  let in_range (n : Z) : option Z :=
    if bool_decide (- 2 ^ 63 ≤ n < 2 ^ 63)%Z then Some n else None in
  match s with
  | EmptyString => None
  | String "-" (String _ _ as s') => digits s' 0 ≫= λ n, in_range (- n)%Z
  | String "+" (String _ _ as s') => digits s' 0 ≫= in_range
  | _ => digits s 0 ≫= in_range
  end.

(** runc.ReadPidFile (go-runc): read the file, then [strconv.Atoi]. *)
Definition runc_ReadPidFile (path : string) (st : Store) : Z * option error :=
  match fs st !! path with
  | Some (File data) =>
      match Atoi data with
      | Some pid => (pid, None)
      | None => (0%Z, Some (strconv_NumError data))
      end
  | Some Directory => ((-1)%Z, Some (os_PathError "read" path "is a directory"))
  | None => ((-1)%Z, Some (os_PathError "open" path "no such file or directory"))
  end.

(** ** Records of the packages [execution] and [runc] *)

(** execution.Process, as oci.go uses it: [ID()] and [Pid()]. *)
Record Process : Type := mkProcess {
  p_ID : string;
  p_Pid : Z
}.

Global Instance Process_eq_dec : EqDecision Process.
Proof. solve_decision. Defined.

(** Modelled from the spec: execution.Container is not among the sources.
    "identity = unique string ID; attributes = bundle path, state-directory
    handle, set of Process records", "tracking which one is the init
    process".  The process set is keyed by process id, the key of
    GetProcess; each record carries the mark that AddProcess was given. *)
Record Container : Type := mkContainer {
  c_ID : string;
  c_Bundle : string;
  c_StateDir : string;
  c_processes : gmap string (Process * bool)
}.

(** Modelled from the spec: Container.AddProcess, "attach it to the
    Container as init" or "not marked init". *)
Definition Container_AddProcess (c : Container) (p : Process) (init : bool) : Container :=
  {| c_ID := c_ID c; c_Bundle := c_Bundle c; c_StateDir := c_StateDir c;
     c_processes := <[p_ID p := (p, init)]> (c_processes c) |}.

(** Modelled from the spec: Container.GetProcess, "pure in-memory lookup";
    [nil] when there is no such process. *)
Definition Container_GetProcess (c : Container) (id : string) : ptr Process :=
  fst <$> c_processes c !! id.

(** Modelled from the spec: execution.LoadContainer builds the record from
    a state directory, an id and a bundle, with no process yet. *)
Definition LoadContainer (dir id bundle : string) : Container :=
  {| c_ID := id; c_Bundle := bundle; c_StateDir := dir; c_processes := ∅ |}.

Definition marked_init (c : Container) : list Process :=
  fst <$> filter (λ pb, pb.2 = true) (snd <$> map_to_list (c_processes c)).

(** execution.CreateOpts and the options of StartProcess. *)
Record CreateOpts : Type := mkCreateOpts {
  Bundle : string;
  Stdin : string;
  Stdout : string;
  Stderr : string
}.

Record CreateProcessOpts : Type := mkCreateProcessOpts {
  spec : string;
  stdin : string;
  stdout : string;
  stderr : string
}.

(** runc.Container, runc.CreateOpts, runc.ExecOpts. *)
Record runc_Container : Type := mkRuncContainer {
  rc_ID : string;
  rc_Bundle : string;
  rc_Pid : Z
}.

Record runc_CreateOpts : Type := mkRuncCreateOpts {
  co_Pidfile : string;
  co_Stdin : string;
  co_Stdout : string;
  co_Stderr : string
}.

Record runc_ExecOpts : Type := mkRuncExecOpts {
  eo_PidFile : string;
  eo_Detach : bool;
  eo_Stdin : string;
  eo_Stdout : string;
  eo_Stderr : string
}.

Global Instance runc_CreateOpts_eq_dec : EqDecision runc_CreateOpts.
Proof. solve_decision. Defined.
Global Instance runc_ExecOpts_eq_dec : EqDecision runc_ExecOpts.
Proof. solve_decision. Defined.

Record Runc : Type := mkRunc { Root : string }.

Record OCIRuntime : Type := mkOCIRuntime {
  root : string;
  runc : ptr Runc
}.

(** ** The world outside the executor *)

(** The calls made to the driver, in order. *)
Inductive DriverCall : Type :=
  | call_Create (id bundle : string) (opts : runc_CreateOpts)
  | call_ExecProcess (id spec : string) (opts : runc_ExecOpts)
  | call_List
  | call_State (id : string)
  | call_Delete (id : string)
  | call_Pause (id : string)
  | call_Resume (id : string).

Global Instance DriverCall_eq_dec : EqDecision DriverCall.
Proof. solve_decision. Defined.

(** The ledger, the calls made to the driver and the signals sent. *)
Record World : Type := mkWorld {
  store : Store;
  calls : list DriverCall;
  kills : list (Z * Z)
}.

Definition set_store (f : Store → Store) (w : World) : World :=
  {| store := f (store w); calls := calls w; kills := kills w |}.
Definition log_call (k : DriverCall) (w : World) : World :=
  {| store := store w; calls := calls w ++ [k]; kills := kills w |}.
Definition log_kill (pid sig : Z) (w : World) : World :=
  {| store := store w; calls := calls w; kills := kills w ++ [(pid, sig)] |}.

(** What the executor cannot decide: the answers of the driver, of the
    kernel and of [newProcess].  A driver call answers with its error and
    with what it wrote to the PID file it was handed, if anything: the
    driver changes nothing else of the ledger (spec, section 5). *)
Record Extern : Type := mkExtern {
  on_Create : World → string → string → runc_CreateOpts → option error * option string;
  on_ExecProcess : World → string → string → runc_ExecOpts → option error * option string;
  on_List : World → list runc_Container * option error;
  on_State : World → string → runc_Container * option error;
  on_Delete : World → string → option error;
  on_Pause : World → string → option error;
  on_Resume : World → string → option error;
  on_Kill : World → Z → Z → option error;
  on_newProcess : string → Z → option error
}.

(** ** Calls that return, or panic *)

Inductive result (A : Type) : Type :=
  | Returned (a : A)
  | Panicked.
Arguments Returned {A} a.
Arguments Panicked {A}.

Definition M (A : Type) : Type := World → result A * World.

Global Instance M_ret : MRet M := λ A a w, (Returned a, w).
Global Instance M_bind : MBind M := λ A B f m w,
  match m w with
  | (Returned a, w') => f a w'
  | (Panicked, w') => (Panicked, w')
  end.

Definition panic {A : Type} : M A := λ w, (Panicked, w).

(** Dereference: a nil pointer panics. *)
Definition deref {A : Type} (p : ptr A) : M A :=
  match p with
  | Some a => mret a
  | None => panic
  end.

(** An operation on the ledger alone. *)
Definition on_store {A : Type} (f : Store → A * Store) : M A := λ w,
  let '(a, st) := f (store w) in
  (Returned a, {| store := st; calls := calls w; kills := kills w |}).

Definition read_store {A : Type} (f : Store → A) : M A := λ w, (Returned (f (store w)), w).

(** A function body with one deferred call.  A return statement sets the
    results first; the deferred call runs next and sees them; then the
    function returns them. *)
Definition with_defer {A : Type} (body : M A) (deferred : A → M unit) : M A :=
  res ← body; deferred res;; mret res.

(** ** The state directory (package execution) *)

(** The methods of execution.StateDir that oci.go calls.  The type is a
    string ([execution.StateDir(filepath.Join(...))] in [load]); its methods
    work on the ledger and on nothing else. *)
Class StateDirOps : Type := {
  NewStateDir : string → string → Store → (string * option error) * Store;
  sd_NewProcess : string → Store → (string * option error) * Store;
  sd_Delete : string → Store → option error * Store;
  sd_DeleteProcess : string → string → Store → option error * Store;
  sd_Processes : string → string
}.

(** Modelled from the spec: the slot names of StateDir.NewProcess, which is
    not among the sources.  The [n]-th slot is named by a letter and the
    digits of [n]. *)
Definition slot_name (n : nat) : string :=
  String "p" (NilEmpty.string_of_uint (Nat.to_uint n)).

Definition bump (st : Store) : Store := {| fs := fs st; next := S (next st) |}.

(** Modelled from the spec: the ledger layout of section 6,
    root/<containerID>/processes/<slotName>/pid. *)
Definition ledger_Processes (dir : string) : string := Join [dir; "processes"].

(** Modelled from the spec: "allocate container-level ledger entry", with
    the precondition that the id is "unused by any existing ledger entry":
    the entry and its process collection are made, and an entry that exists
    is an error.  An entry whose collection cannot be made is removed. *)
Definition ledger_NewStateDir (root id : string) (st : Store) : (string * option error) * Store :=
  let path := Join [root; id] in
  match os_Mkdir path st with
  | (Some e, st1) => (("", Some e), st1)
  | (None, st1) =>
      match os_Mkdir (ledger_Processes path) st1 with
      | (Some e, st2) => (("", Some e), (os_RemoveAll path st2).2)
      | (None, st2) => ((path, None), st2)
      end
  end.

(** Modelled from the spec: "allocate process-slot ledger entry": a slot
    directory with the next slot name is made in the process collection and
    its path is returned. *)
Definition ledger_NewProcess (dir : string) (st : Store) : (string * option error) * Store :=
  let path := Join [ledger_Processes dir; slot_name (next st)] in
  match os_Mkdir path (bump st) with
  | (Some e, st1) => (("", Some e), st1)
  | (None, st1) => ((path, None), st1)
  end.

(** Modelled from the spec: "removes the container's entire ledger entry". *)
Definition ledger_Delete (dir : string) (st : Store) : option error * Store :=
  os_RemoveAll dir st.

(** Modelled from the spec: "removes the process-slot ledger entry". *)
Definition ledger_DeleteProcess (dir id : string) (st : Store) : option error * Store :=
  os_RemoveAll (Join [ledger_Processes dir; id]) st.

Definition ledger : StateDirOps := {|
  NewStateDir := ledger_NewStateDir;
  sd_NewProcess := ledger_NewProcess;
  sd_Delete := ledger_Delete;
  sd_DeleteProcess := ledger_DeleteProcess;
  sd_Processes := ledger_Processes
|}.

(** ** Package oci *)

Section OCI.
Context {SD : StateDirOps} (X : Extern).

(** Modelled from the spec: execution.NewContainer allocates the
    container-level ledger entry and builds the record, with no process. *)
Definition NewContainer (stateRoot id bundle : string) : M (ptr Container * option error) :=
  '(stateDir, err) ← on_store (NewStateDir stateRoot id);
  match err with
  | Some _ => mret (nil_ptr, err)
  | None => mret (Some (LoadContainer stateDir id bundle), None)
  end.

(** The driver (go-runc).  Each call is logged; the answer is [X]'s, asked
    in the world as it is before the call. *)
Definition runc_Create (id bundle : string) (opts : runc_CreateOpts) : M (option error) := λ w,
  let '(err, written) := on_Create X w id bundle opts in
  let w1 := log_call (call_Create id bundle opts) w in
  (Returned err,
   match written with
   | Some data => set_store (write_file (co_Pidfile opts) data) w1
   | None => w1
   end).

Definition runc_ExecProcess (id spec : string) (opts : runc_ExecOpts) : M (option error) := λ w,
  let '(err, written) := on_ExecProcess X w id spec opts in
  let w1 := log_call (call_ExecProcess id spec opts) w in
  (Returned err,
   match written with
   | Some data => set_store (write_file (eo_PidFile opts) data) w1
   | None => w1
   end).

Definition runc_List : M (list runc_Container * option error) := λ w,
  (Returned (on_List X w), log_call call_List w).
Definition runc_State (id : string) : M (runc_Container * option error) := λ w,
  (Returned (on_State X w id), log_call (call_State id) w).
Definition runc_Delete (id : string) : M (option error) := λ w,
  (Returned (on_Delete X w id), log_call (call_Delete id) w).
Definition runc_Pause (id : string) : M (option error) := λ w,
  (Returned (on_Pause X w id), log_call (call_Pause id) w).
Definition runc_Resume (id : string) : M (option error) := λ w,
  (Returned (on_Resume X w id), log_call (call_Resume id) w).

Definition syscall_Kill (pid sig : Z) : M (option error) := λ w,
  (Returned (on_Kill X w pid sig), log_kill pid sig w).

(** Modelled from the spec: newProcess (package oci, not among the sources)
    "constructs a Process record" for a slot name and a PID, or fails. *)
Definition newProcess (id : string) (pid : Z) : ptr Process * option error :=
  match on_newProcess X id pid with
  | Some e => (nil_ptr, Some e)
  | None => (Some {| p_ID := id; p_Pid := pid |}, None)
  end.

(** oci.go, lines 17-24.  [New] has one result and no error. *)
Definition New (root : string) : ptr OCIRuntime :=
  Some {| root := root; runc := Some {| Root := Join [root; "runc"] |} |}.

(** oci.go, lines 32-67.  [container] and [err] are the named results.
    The first return comes before the defer statement.  Every later return
    statement sets both results, and then the deferred closure runs and
    reads the two result variables: after [return nil, err] it finds
    [container] nil.  [StateDir()] gives the state directory of the
    container it is called on (lines 126 and 141 read it as the field
    [c.StateDir]); on the nil container that is a nil dereference.
    The one result of [NewProcess] is its directory. *)
Definition Create (r : OCIRuntime) (id : string) (o : CreateOpts) : M (ptr Container * option error) :=
  '(container, err) ← NewContainer (root r) id (Bundle o);
  match err with
  | Some _ => mret (nil_ptr, err)
  | None =>
    with_defer
      (c ← deref container;
       '(initDir, _) ← on_store (sd_NewProcess (c_StateDir c));
       let pidFile := Join [initDir; "pid"] in
       err ← runc_Create id (Bundle o)
               {| co_Pidfile := pidFile; co_Stdin := Stdin o;
                  co_Stdout := Stdout o; co_Stderr := Stderr o |};
       match err with
       | Some _ => mret (nil_ptr, err)
       | None =>
         '(pid, err) ← read_store (runc_ReadPidFile pidFile);
         match err with
         | Some _ => mret (nil_ptr, err)
         | None =>
           let '(process, err) := newProcess (Base initDir) pid in
           match err with
           | Some _ => mret (nil_ptr, err)
           | None =>
             p ← deref process;
             mret (Some (Container_AddProcess c p true), None)
           end
         end
       end)
      (λ '(container, err),
         match err with
         | Some _ =>
           c ← deref container;
           _ ← on_store (sd_Delete (c_StateDir c));
           mret ()
         | None => mret ()
         end)
  end.

(** oci.go, lines 80-90: the loop of [load]. *)
Fixpoint load_dirs (runcC : runc_Container) (dirs : list string) (container : Container)
  : M (ptr Container * option error) :=
  match dirs with
  | [] => mret (Some container, None)
  | d :: dirs' =>
    '(pid, err) ← read_store (runc_ReadPidFile (Join [d; "pid"]));
    match err with
    | Some _ => mret (nil_ptr, err)
    | None =>
      let '(process, err) := newProcess (Base d) pid in
      match err with
      | Some _ => mret (nil_ptr, err)
      | None =>
        p ← deref process;
        load_dirs runcC dirs'
          (Container_AddProcess container p (bool_decide (pid = rc_Pid runcC)))
      end
    end
  end.

(** oci.go, lines 69-93. *)
Definition load (r : OCIRuntime) (runcC : runc_Container) : M (ptr Container * option error) :=
  let container :=
    LoadContainer (Join [root r; rc_ID runcC]) (rc_ID runcC) (rc_Bundle runcC) in
  '(dirs, err) ← read_store (ioutil_ReadDir (Join [sd_Processes (c_StateDir container)]));
  match err with
  | Some _ => mret (nil_ptr, err)
  | None => load_dirs runcC dirs container
  end.

(** oci.go, lines 102-108: the loop of [List]. *)
Fixpoint List_loop (r : OCIRuntime) (runcCs : list runc_Container)
    (containers : list (ptr Container)) : M (list (ptr Container) * option error) :=
  match runcCs with
  | [] => mret (containers, None)
  | c :: runcCs' =>
    '(container, err) ← load r c;
    match err with
    | Some _ => mret ([], err)
    | None => List_loop r runcCs' (containers ++ [container])
    end
  end.

(** oci.go, lines 95-111.  A nil slice is the empty list. *)
Definition List (r : OCIRuntime) : M (list (ptr Container) * option error) :=
  '(runcCs, err) ← runc_List;
  match err with
  | Some _ => mret ([], err)
  | None => List_loop r runcCs []
  end.

(** oci.go, lines 113-120. *)
Definition Load (r : OCIRuntime) (id : string) : M (ptr Container * option error) :=
  '(runcC, err) ← runc_State id;
  match err with
  | Some _ => mret (nil_ptr, err)
  | None => load r runcC
  end.

(** oci.go, lines 122-128. *)
Definition Delete (r : OCIRuntime) (c : ptr Container) : M (option error) :=
  c0 ← deref c;
  err ← runc_Delete (c_ID c0);
  match err with
  | Some _ => mret err
  | None => _ ← on_store (sd_Delete (c_StateDir c0)); mret None
  end.

(** oci.go, lines 130-136. *)
Definition Pause (r : OCIRuntime) (c : ptr Container) : M (option error) :=
  c0 ← deref c; runc_Pause (c_ID c0).

Definition Resume (r : OCIRuntime) (c : ptr Container) : M (option error) :=
  c0 ← deref c; runc_Resume (c_ID c0).

(** oci.go, lines 138-175.  The results are the process, the error and the
    container [c] as the call leaves it.  [id] is the identifier that line
    151 joins to the slot directory.  The results are not named here: the
    deferred closure reads the local [err], which at every return statement
    is the error being returned (nil at the last one). *)
Definition StartProcess (id : string) (r : OCIRuntime) (c : ptr Container)
    (o : CreateProcessOpts) : M (ptr Process * option error * ptr Container) :=
  c0 ← deref c;
  '(processStateDir, err) ← on_store (sd_NewProcess (c_StateDir c0));
  match err with
  | Some _ => mret (nil_ptr, err, c)
  | None =>
    with_defer
      (let pidFile := Join [processStateDir; id] in
       err ← runc_ExecProcess (c_ID c0) (spec o)
               {| eo_PidFile := pidFile; eo_Detach := true; eo_Stdin := stdin o;
                  eo_Stdout := stdout o; eo_Stderr := stderr o |};
       match err with
       | Some _ => mret (nil_ptr, err, c)
       | None =>
         '(pid, err) ← read_store (runc_ReadPidFile pidFile);
         match err with
         | Some _ => mret (nil_ptr, err, c)
         | None =>
           let '(process, err) := newProcess (Base processStateDir) pid in
           match err with
           | Some _ => mret (nil_ptr, err, c)
           | None =>
             p ← deref process;
             mret (Some p, None, Some (Container_AddProcess c0 p false))
           end
         end
       end)
      (λ '(_, err, _),
         match err with
         | Some _ =>
           _ ← on_store (sd_DeleteProcess (c_StateDir c0) (Base processStateDir));
           mret ()
         | None => mret ()
         end)
  end.

(** oci.go, lines 177-183. *)
Definition SignalProcess (r : OCIRuntime) (c : ptr Container) (id : string) (sig : Z)
  : M (option error) :=
  c0 ← deref c;
  match Container_GetProcess c0 id with
  | None => mret (Some (fmt_Errorf "Make a Process Not Found error"))
  | Some process => syscall_Kill (p_Pid process) sig
  end.

(** oci.go, lines 185-187. *)
Definition GetProcess (r : OCIRuntime) (c : ptr Container) (id : string) : M (ptr Process) :=
  c0 ← deref c; mret (Container_GetProcess c0 id).

(** oci.go, lines 189-192. *)
Definition DeleteProcess (r : OCIRuntime) (c : ptr Container) (id : string) : M (option error) :=
  c0 ← deref c;
  _ ← on_store (sd_DeleteProcess (c_StateDir c0) id);
  mret None.

End OCI.

(** ** Notions used in the statements *)

(** An element that [Clean] keeps: not empty, without separator, not ".". *)
Definition kept (e : string) : Prop := e ≠ "" ∧ has_sep e = false ∧ e ≠ ".".

(** The elements that [Clean] has kept, the last one first: ".." stands
    only above other "..", and not in a rooted path. *)
Fixpoint normal (rt : bool) (acc : list string) : Prop :=
  match acc with
  | [] => True
  | e :: rest =>
      kept e ∧ (e = ".." → rt = false ∧ Forall (λ x, x = "..") rest) ∧ normal rt rest
  end.

(** The world once the ledger has tried to make the entry of a container
    and its process collection, and whether it could. *)
Definition allocated (stateRoot id : string) (w : World) : World :=
  set_store (λ st, (ledger_NewStateDir stateRoot id st).2) w.

Definition allocates (stateRoot id : string) (w : World) : Prop :=
  (ledger_NewStateDir stateRoot id (store w)).1.2 = None.

(** The ledger can make the next process slot of the state directory. *)
Definition allocates_slot (dir : string) (st : Store) : Prop :=
  (ledger_NewProcess dir st).1.2 = None.

(** The options that Create and StartProcess hand to the driver. *)
Definition create_opts (pidFile : string) (o : CreateOpts) : runc_CreateOpts :=
  {| co_Pidfile := pidFile; co_Stdin := Stdin o; co_Stdout := Stdout o; co_Stderr := Stderr o |}.

Definition exec_opts (pidFile : string) (o : CreateProcessOpts) : runc_ExecOpts :=
  {| eo_PidFile := pidFile; eo_Detach := true; eo_Stdin := stdin o;
     eo_Stdout := stdout o; eo_Stderr := stderr o |}.

(** The slot directory that Create gets from NewProcess, and the world in
    which it then calls the driver. *)
Definition Create_slot (r : OCIRuntime) (id : string) (w : World) : string * World :=
  let '(initDir, _, st) :=
    ledger_NewProcess (Join [root r; id]) (store (allocated (root r) id w)) in
  (initDir, {| store := st; calls := calls w; kills := kills w |}).

(** The slot that the next NewProcess of a container makes, the world with
    that slot, and the world with the slot removed again. *)
Definition next_slot (c : Container) (w : World) : string :=
  Join [ledger_Processes (c_StateDir c); slot_name (next (store w))].

Definition with_slot (slot : string) (w : World) : World :=
  set_store (λ st, set_fs (insert slot Directory) (bump st)) w.

Definition rolled_back (slot : string) (w : World) : World :=
  set_store (λ st, (os_RemoveAll slot st).2) w.

(** The elements that [Clean] keeps of a path, the last one first. *)
Definition elems (path : string) : list string :=
  fold_left (clean_step (rooted path)) (split_sep path) [].

(** A clean path that ends with an element: neither "." nor "/". *)
Definition proper (q : string) : Prop := Clean q = q ∧ elems q ≠ [].

(** Nothing is at or below [dir]. *)
Definition vacant (dir : string) (st : Store) : Prop :=
  forallb (λ p, negb (bool_decide (under dir p))) (map_to_list (fs st)).*1 = true.

(** The [n]-th process slot of a state directory. *)
Definition slot_of (dir : string) (n : nat) : string :=
  Join [ledger_Processes dir; slot_name n].

(** The ledger after a successful Create in a vacant place: the entry, its
    process collection, the init slot and the PID file that the driver
    wrote. *)
Definition created (entry data : string) (st : Store) : Store :=
  let slot := slot_of entry (next st) in
  {| fs := <[Join [slot; "pid"] := File data]>
             (<[slot := Directory]>
                (<[ledger_Processes entry := Directory]> (<[entry := Directory]> (fs st))));
     next := S (next st) |}.

(** The container that a successful Create returns: one process, in the
    [n]-th slot, marked init. *)
Definition init_container (id bundle entry : string) (n : nat) (pid : Z) : Container :=
  Container_AddProcess (LoadContainer entry id bundle) {| p_ID := slot_name n; p_Pid := pid |} true.

Section Reconstruction.
Context {SD : StateDirOps} (X : Extern).

(** The reconstruction of [runcC] fails in [w]. *)
Definition load_fails (r : OCIRuntime) (w : World) (runcC : runc_Container) : Prop :=
  ∃ res, load X r runcC w = (Returned res, w) ∧ is_Some res.2.

(** The reconstruction of [runcC] in [w] gives the container [c]. *)
Definition loads (r : OCIRuntime) (w : World) (runcC : runc_Container)
    (c : ptr Container) : Prop :=
  is_Some c ∧ load X r runcC w = (Returned (c, None), w).

(** Create a container, start one more process in it, load it again:
    the container as StartProcess left it and what Load returns.  [None]
    when Create or StartProcess did not succeed. *)
Definition round_trip (id : string) (r : OCIRuntime) (cid : string) (o : CreateOpts)
    (po : CreateProcessOpts) (w : World) : option (Container * (ptr Container * option error)) :=
  match Create X r cid o w with
  | (Returned (Some c, None), w1) =>
      match StartProcess X id r (Some c) po w1 with
      | (Returned (Some _, None, Some c'), w2) =>
          match Load X r cid w2 with
          | (Returned res, _) => Some (c', res)
          | (Panicked, _) => None
          end
      | _ => None
      end
  | _ => None
  end.

End Reconstruction.

(** ** Drivers and worlds to run the executor on *)

(** A driver that does as asked: the init process gets PID 4242, every
    process started later PID 4243. *)
Definition cooperative : Extern := {|
  on_Create := λ _ _ _ _, (None, Some "4242");
  on_ExecProcess := λ _ _ _ _, (None, Some "4243");
  on_List := λ _, ([{| rc_ID := "c1"; rc_Bundle := "/bundles/c1"; rc_Pid := 4242 |}], None);
  on_State := λ _ id, ({| rc_ID := id; rc_Bundle := "/bundles/c1"; rc_Pid := 4242 |}, None);
  on_Delete := λ _ _, None;
  on_Pause := λ _ _, None;
  on_Resume := λ _ _, None;
  on_Kill := λ _ _ _, None;
  on_newProcess := λ _ _, None
|}.

(** A driver whose create, exec and delete fail, and that writes no PID
    file. *)
Definition refusing : Extern := {|
  on_Create := λ _ _ _ _, (Some (runc_Error "exit status 1"), None);
  on_ExecProcess := λ _ _ _ _, (Some (runc_Error "exit status 1"), None);
  on_List := λ _, ([{| rc_ID := "c1"; rc_Bundle := "/bundles/c1"; rc_Pid := 4242 |}], None);
  on_State := λ _ id, ({| rc_ID := id; rc_Bundle := "/bundles/c1"; rc_Pid := 4242 |}, None);
  on_Delete := λ _ _, Some (runc_Error "exit status 1");
  on_Pause := λ _ _, None;
  on_Resume := λ _ _, None;
  on_Kill := λ _ _ _, None;
  on_newProcess := λ _ _, None
|}.

(** A driver that reports success but writes no PID file. *)
Definition silent : Extern := {|
  on_Create := λ _ _ _ _, (None, None);
  on_ExecProcess := λ _ _ _ _, (None, None);
  on_List := on_List cooperative;
  on_State := on_State cooperative;
  on_Delete := λ _ _, None;
  on_Pause := λ _ _, None;
  on_Resume := λ _ _, None;
  on_Kill := λ _ _ _, None;
  on_newProcess := λ _ _, None
|}.

(** The cooperative driver on a system where no process record can be
    made. *)
Definition no_process : Extern := {|
  on_Create := on_Create cooperative;
  on_ExecProcess := on_ExecProcess cooperative;
  on_List := on_List cooperative;
  on_State := on_State cooperative;
  on_Delete := λ _ _, None;
  on_Pause := λ _ _, None;
  on_Resume := λ _ _, None;
  on_Kill := λ _ _ _, None;
  on_newProcess := λ _ _, Some (syscall_Errno 3)
|}.

(** A world with the runtime root and nothing else. *)
Definition w_fresh : World :=
  {| store := {| fs := {[ "/run/oci" := Directory ]}; next := 0 |}; calls := []; kills := [] |}.

Definition r_run : OCIRuntime :=
  {| root := "/run/oci"; runc := Some {| Root := "/run/oci/runc" |} |}.

Definition r_empty : OCIRuntime := {| root := ""; runc := Some {| Root := "runc" |} |}.

Definition o_c1 : CreateOpts :=
  {| Bundle := "/bundles/c1"; Stdin := "in"; Stdout := "out"; Stderr := "err" |}.

Definition po_sh : CreateProcessOpts :=
  {| spec := "sh"; stdin := "in"; stdout := "out"; stderr := "err" |}.

(** The container "c1" as a successful Create returns it, and the world
    after that call. *)
Definition c1_created : Container :=
  {| c_ID := "c1"; c_Bundle := "/bundles/c1"; c_StateDir := "/run/oci/c1";
     c_processes := {[ "p0" := ({| p_ID := "p0"; p_Pid := 4242 |}, true) ]} |}.

Definition w_c1 : World := (Create (SD:=ledger) cooperative r_run "c1" o_c1 w_fresh).2.

(** "c1" with a second process, as a successful StartProcess leaves it. *)
Definition c1_two : Container :=
  {| c_ID := "c1"; c_Bundle := "/bundles/c1"; c_StateDir := "/run/oci/c1";
     c_processes := <[ "p1" := ({| p_ID := "p1"; p_Pid := 4243 |}, false) ]>
                      (c_processes c1_created) |}.

(** Running the monad. *)
Ltac run :=
  unfold with_defer, deref, panic, on_store, read_store;
  unfold mbind, M_bind, mret, M_ret; simpl.

(** * Properties *)

(** ** Paths *)

Example Clean_table_holds : Forall (λ io, Clean io.1 = io.2) Clean_table.
Proof. repeat constructor. Qed.

Example Join_Base_Dir_cases :
  Join ["/run/oci"; "c1"] = "/run/oci/c1" ∧ Join ["/run/oci/"; "c1"; "processes"] = "/run/oci/c1/processes"
  ∧ Join [""; "runc"] = "runc" ∧ Join ["a"; ""] = "a" ∧ Join [""; ""] = "" ∧ Join ["a"; "../b"] = "b"
  ∧ Base "/run/oci/c1/processes/p0" = "p0" ∧ Base "a/b//" = "b" ∧ Base "" = "." ∧ Base "///" = "/"
  ∧ Dir "/run/oci/c1" = "/run/oci" ∧ Dir "/a/b/" = "/a/b" ∧ Dir "c1" = "." ∧ Dir "/c1" = "/"
  ∧ Dir "" = ".".
Proof. repeat split. Qed.


Lemma app_String (a : ascii) (s t : string) : String a s +:+ t = String a (s +:+ t).
Proof. reflexivity. Qed.

Lemma app_empty_l (t : string) : "" +:+ t = t.
Proof. reflexivity. Qed.

Lemma eqb_empty_String (a : ascii) (s : string) : String.eqb (String a s) "" = false.
Proof. reflexivity. Qed.

Lemma string_app_assoc (s t u : string) : (s +:+ t) +:+ u = s +:+ (t +:+ u).
Proof. induction s as [|a s IH]; [done|]. rewrite !app_String. by rewrite IH. Qed.

Lemma name_inv (e : string) :
  name e → e ≠ "" ∧ has_sep e = false ∧ e ≠ "." ∧ e ≠ "..".
Proof.
  unfold name, is_name. rewrite !andb_true_iff, !negb_true_iff.
  intros [[[H1 H2] H3] H4]. repeat split; [|done| |]; intros ->; done.
Qed.

Lemma trim_sep_plain (n : string) : has_sep n = false → trim_sep n = n.
Proof.
  induction n as [|a n IH]; [done|]. simpl. intros [Ha Hn]%orb_false_iff.
  rewrite Ha. simpl. by rewrite IH.
Qed.

Lemma trim_sep_app (s t : string) :
  trim_sep t ≠ "" → trim_sep (s +:+ t) = s +:+ trim_sep t.
Proof.
  intros Ht. induction s as [|a s IH]; [done|].
  rewrite !app_String. simpl. rewrite IH.
  destruct (s +:+ trim_sep t) as [|b u] eqn:E.
  - destruct s; [by rewrite app_empty_l in E | by rewrite app_String in E].
  - by rewrite eqb_empty_String, andb_false_r.
Qed.

Lemma has_sep_app_sep (s n : string) : has_sep (s +:+ String "/" n) = true.
Proof. induction s as [|a s IH]; [done|]. rewrite app_String. simpl. by rewrite IH, orb_true_r. Qed.

Lemma last_elem_app_sep (s n : string) :
  has_sep n = false → last_elem (s +:+ String "/" n) = n.
Proof.
  intros Hn. induction s as [|a s IH].
  - rewrite app_empty_l. simpl. by rewrite Hn.
  - rewrite app_String. simpl. by rewrite has_sep_app_sep.
Qed.

Lemma Base_name (n : string) : name n → Base n = n.
Proof.
  intros (Hne & Hs & _)%name_inv. unfold Base. destruct n as [|a n]; [done|].
  rewrite eqb_empty_String, trim_sep_plain by done. simpl in *.
  apply orb_false_iff in Hs as [Ha Hs]. by rewrite Hs, Ha.
Qed.

Lemma Base_app_sep (s n : string) : name n → Base (s +:+ String "/" n) = n.
Proof.
  intros (Hne & Hs & _)%name_inv. unfold Base.
  assert (s +:+ String "/" n ≠ "") as Hx by (by destruct s).
  destruct (s +:+ String "/" n) as [|a x] eqn:E; [done|]. rewrite eqb_empty_String, <- E.
  assert (trim_sep (String "/" n) = String "/" n) as Ht.
  { simpl. rewrite trim_sep_plain by done. destruct n; done. }
  rewrite trim_sep_app by (by rewrite Ht). rewrite Ht.
  rewrite last_elem_app_sep by done. destruct n; done.
Qed.

Lemma split_sep_nonempty (s : string) : split_sep s ≠ [].
Proof. induction s as [|a s IH]; [done|]. simpl. destruct (is_sep a); [done|]. by destruct (split_sep s). Qed.

Lemma split_sep_plain (n : string) : has_sep n = false → split_sep n = [n].
Proof.
  induction n as [|a n IH]; [done|]. simpl. intros [Ha Hn]%orb_false_iff.
  by rewrite Ha, IH.
Qed.

Lemma split_sep_app (s t : string) :
  split_sep (s +:+ String "/" t) = split_sep s ++ split_sep t.
Proof.
  induction s as [|a s IH]; [done|]. rewrite app_String. simpl. rewrite IH.
  destruct (is_sep a); [done|].
  pose proof (split_sep_nonempty s). by destruct (split_sep s).
Qed.

Lemma clean_step_name (rt : bool) (acc : list string) (e : string) :
  name e → clean_step rt acc e = e :: acc.
Proof.
  intros (H1 & _ & H3 & H4)%name_inv. unfold clean_step.
  apply String.eqb_neq in H1, H3, H4. by rewrite H1, H3, H4.
Qed.

Lemma concat_snoc (xs : list string) (n : string) :
  xs ≠ [] → String.concat "/" (xs ++ [n]) = String.concat "/" xs +:+ String "/" n.
Proof.
  induction xs as [|x xs IH]; [done|]. intros _. destruct xs as [|y xs].
  { simpl. by destruct n. }
  change (String.concat "/" ((x :: y :: xs) ++ [n]))
    with (x +:+ "/" +:+ String.concat "/" ((y :: xs) ++ [n])).
  rewrite IH by done.
  change (String.concat "/" (x :: y :: xs)) with (x +:+ "/" +:+ String.concat "/" (y :: xs)).
  by rewrite !string_app_assoc.
Qed.

(** After [Clean], a path that ends with a name still ends with it. *)
Lemma Clean_ends_with_name (p n : string) :
  name n → p = n ∨ (∃ d, p = d +:+ String "/" n) →
  Clean p = n ∨ ∃ x, Clean p = x +:+ String "/" n.
Proof.
  intros Hn Hp. pose proof (name_inv n Hn) as (Hne & Hs & _).
  assert (∃ l, split_sep p = l ++ [n]) as [l Hl].
  { destruct Hp as [->|[d ->]].
    - exists []. by apply split_sep_plain.
    - exists (split_sep d). by rewrite split_sep_app, (split_sep_plain n). }
  unfold Clean. rewrite Hl, fold_left_app. cbn [fold_left].
  rewrite (clean_step_name _ _ n Hn). cbn [rev].
  set (st := rev (fold_left _ l [])). unfold render.
  destruct (decide (st = [])) as [->|Hst].
  - simpl. destruct (rooted p); simpl.
    + right. exists "". by destruct n.
    + left. by destruct n.
  - right. rewrite concat_snoc by done.
    exists ((if rooted p then "/" else "") +:+ String.concat "/" st).
    rewrite <- string_app_assoc.
    by destruct ((if rooted p then "/" else "") +:+ String.concat "/" st).
Qed.

Lemma Join_dir_name (d n : string) :
  n ≠ "" → Join [d; n] = Clean (if decide (d = "") then n else d +:+ String "/" n).
Proof. intros Hn. unfold Join. destruct d as [|a d]; destruct n as [|b n]; done. Qed.

(** filepath.Base(filepath.Join(d, n)) is [n] for a name [n]. *)
Lemma Base_Join (d n : string) : name n → Base (Join [d; n]) = n.
Proof.
  intros Hn. pose proof (name_inv n Hn) as (Hne & _).
  rewrite Join_dir_name by done.
  destruct (Clean_ends_with_name (if decide (d = "") then n else d +:+ String "/" n) n Hn)
    as [->|[x ->]].
  - case_decide; eauto.
  - by apply Base_name.
  - by apply Base_app_sep.
Qed.

Lemma Join_nonempty (d n : string) : name n → Join [d; n] ≠ "".
Proof.
  intros Hn E. pose proof (Base_Join d n Hn) as HB. rewrite E in HB.
  apply name_inv in Hn as (_ & _ & Hd & _). by subst.
Qed.

(** Two names give the same path in a directory only when they are equal. *)
Lemma Join_name_inj (d n m : string) : name n → name m → Join [d; n] = Join [d; m] → n = m.
Proof. intros Hn Hm E. by rewrite <- (Base_Join d n), <- (Base_Join d m), E. Qed.

Lemma split_sep_no_sep (s : string) : Forall (λ e, has_sep e = false) (split_sep s).
Proof.
  induction s as [|a s IH]; [by repeat constructor|]. simpl.
  destruct (is_sep a) eqn:Ha; [by constructor|].
  destruct (split_sep s) as [|e es]; [by repeat constructor; simpl; rewrite Ha|].
  apply Forall_cons in IH as [He Hes]. constructor; [|done]. simpl. by rewrite Ha, He.
Qed.

Lemma normal_step (rt : bool) (acc : list string) (e : string) :
  normal rt acc → has_sep e = false → normal rt (clean_step rt acc e).
Proof.
  intros Hd He. unfold clean_step.
  destruct (String.eqb e "") eqn:E1; [done|].
  destruct (String.eqb e ".") eqn:E2; [done|]. simpl.
  apply String.eqb_neq in E1, E2.
  destruct (String.eqb e "..") eqn:E3.
  - apply String.eqb_eq in E3 as ->. destruct acc as [|t rest].
    + destruct rt; [done|]. simpl. repeat split; done.
    + destruct (String.eqb t "..") eqn:E4.
      * apply String.eqb_eq in E4 as ->. destruct Hd as (Hk & Ht & Hr).
        destruct (Ht eq_refl) as [-> Hall]. simpl. repeat split; try done.
        by constructor.
      * by destruct Hd as (_ & _ & Hr).
  - apply String.eqb_neq in E3. simpl. repeat split; done.
Qed.

Lemma normal_fold (rt : bool) (l acc : list string) :
  normal rt acc → Forall (λ e, has_sep e = false) l →
  normal rt (fold_left (clean_step rt) l acc).
Proof.
  revert acc. induction l as [|e l IH]; intros acc Hd Hl; [done|].
  apply Forall_cons in Hl as [He Hl]. simpl. apply IH; [|done]. by apply normal_step.
Qed.

Lemma normal_suffix (rt : bool) (a b : list string) : normal rt (a ++ b) → normal rt b.
Proof. induction a as [|e a IH]; [done|]. intros (_ & _ & H). by apply IH. Qed.

(** Reading kept elements again keeps them all. *)
Lemma fold_normal (rt : bool) (l acc : list string) :
  normal rt (rev l ++ acc) → fold_left (clean_step rt) l acc = rev l ++ acc.
Proof.
  revert acc. induction l as [|e l IH]; intros acc Hn; [done|].
  simpl in *. rewrite <- app_assoc in Hn. simpl in Hn.
  assert (clean_step rt acc e = e :: acc) as ->.
  { apply normal_suffix in Hn as ((H1 & _ & H2) & Hdd & _). unfold clean_step.
    apply String.eqb_neq in H1, H2. rewrite H1, H2. simpl.
    destruct (String.eqb e "..") eqn:E3; [|done].
    apply String.eqb_eq in E3 as ->. destruct (Hdd eq_refl) as [-> Hall].
    destruct acc as [|t rest]; [done|].
    apply Forall_cons in Hall as [-> _]. done. }
  rewrite IH by done. by rewrite <- app_assoc.
Qed.

Lemma split_concat (st : list string) :
  st ≠ [] → Forall (λ e, has_sep e = false) st → split_sep (String.concat "/" st) = st.
Proof.
  induction st as [|e st IH]; [done|]. intros _ [He Hst]%Forall_cons.
  destruct st as [|e' st]; [by apply split_sep_plain|].
  change (String.concat "/" (e :: e' :: st)) with (e +:+ String "/" (String.concat "/" (e' :: st))).
  rewrite split_sep_app, IH by done. by rewrite split_sep_plain.
Qed.

Lemma rooted_concat (st : list string) :
  st ≠ [] → Forall (λ e, e ≠ "" ∧ has_sep e = false) st →
  rooted (String.concat "/" st) = false ∧ String.concat "/" st ≠ "".
Proof.
  destruct st as [|e st]; [done|]. intros _ [[He Hs] _]%Forall_cons.
  destruct e as [|a e]; [done|]. simpl in Hs. apply orb_false_iff in Hs as [Ha _].
  destruct st; simpl; by rewrite ?Ha.
Qed.

Lemma normal_kept (rt : bool) (acc : list string) :
  normal rt acc → Forall (λ e, e ≠ "" ∧ has_sep e = false) acc.
Proof.
  induction acc as [|e acc IH]; [constructor|]. intros ((H1 & H2 & _) & _ & H).
  constructor; [done|by apply IH].
Qed.

(** [Clean] leaves what it has rendered as it is. *)
Lemma Clean_render (rt : bool) (acc : list string) :
  normal rt acc → Clean (render rt (rev acc)) = render rt (rev acc).
Proof.
  intros Hn. destruct (decide (acc = [])) as [->|Hd].
  { by destruct rt. }
  set (st := rev acc).
  assert (st ≠ []) as Hst by (unfold st; by destruct acc using rev_ind; rewrite ?rev_app_distr).
  assert (Forall (λ e, e ≠ "" ∧ has_sep e = false) st) as Hk.
  { unfold st. apply Forall_rev. by apply (normal_kept rt). }
  destruct (rooted_concat st Hst Hk) as [Hr Hne].
  assert (Forall (λ e, has_sep e = false) st) as Hs.
  { eapply Forall_impl; [done|]. by intros ? [? ?]. }
  assert (render rt st = (if rt then "/" else "") +:+ String.concat "/" st) as Hrender.
  { unfold render. destruct rt; [done|]. simpl.
    destruct (String.concat "/" st); done. }
  rewrite Hrender. unfold Clean.
  assert (rooted ((if rt then "/" else "") +:+ String.concat "/" st) = rt) as ->.
  { destruct rt; [done|]. by rewrite app_empty_l. }
  assert (fold_left (clean_step rt)
            (split_sep ((if rt then "/" else "") +:+ String.concat "/" st)) [] = acc) as ->.
  { assert (fold_left (clean_step rt) st [] = acc) as Hf.
    { rewrite fold_normal; unfold st; rewrite rev_involutive, app_nil_r; done. }
    destruct rt.
    - change ("/" +:+ String.concat "/" st) with (String "/" (String.concat "/" st)).
      simpl. by rewrite split_concat.
    - rewrite app_empty_l. by rewrite split_concat. }
  fold st. by rewrite Hrender.
Qed.

Lemma Clean_idempotent (p : string) : Clean (Clean p) = Clean p.
Proof.
  unfold Clean at 2 3. apply Clean_render. apply normal_fold; [done|].
  apply split_sep_no_sep.
Qed.

Lemma Join_single (x : string) : x ≠ "" → Join [x] = Clean x.
Proof. intros Hx. unfold Join. by destruct x. Qed.

Lemma Join_clean (d n : string) : name n → Join [Join [d; n]] = Join [d; n].
Proof.
  intros Hn. rewrite Join_single by (by apply Join_nonempty).
  pose proof (name_inv n Hn) as (Hne & _). rewrite Join_dir_name by done.
  apply Clean_idempotent.
Qed.

Lemma string_of_uint_no_sep (d : Decimal.uint) : has_sep (NilEmpty.string_of_uint d) = false.
Proof. induction d; done. Qed.

Lemma slot_name_name (n : nat) : name (slot_name n).
Proof.
  unfold name, is_name, slot_name. simpl. by rewrite string_of_uint_no_sep.
Qed.

Lemma slot_name_not_pid (n : nat) : slot_name n ≠ "pid".
Proof. unfold slot_name. intros [= E]. by destruct (Nat.to_uint n). Qed.

Lemma under_refl (dir : string) : under dir dir.
Proof. by left. Qed.

(** Where nothing is left at or below a directory, the directory is not
    there. *)
Lemma gone_entry (st : Store) (dir : string) :
  (∀ p, under dir p → fs st !! p = None) → ¬ exists_path st dir.
Proof. intros H [x Hx]. by rewrite (H dir (under_refl dir)) in Hx. Qed.

(** ** The file system *)

Lemma os_RemoveAll_gone (dir : string) (st : Store) (p : string) :
  under dir p → fs (os_RemoveAll dir st).2 !! p = None.
Proof.
  intros Hu. simpl. apply map_lookup_filter_None. right. intros x _ Hn. by apply Hn.
Qed.

Lemma os_RemoveAll_other (dir : string) (st : Store) (p : string) :
  ¬ under dir p → fs (os_RemoveAll dir st).2 !! p = fs st !! p.
Proof.
  intros Hu. simpl. destruct (fs st !! p) as [x|] eqn:E.
  - by apply map_lookup_filter_Some.
  - apply map_lookup_filter_None. by left.
Qed.

Lemma os_Mkdir_ok (path : string) (st : Store) :
  (os_Mkdir path st).1 = None →
  (os_Mkdir path st).2 = set_fs (insert path Directory) st ∧ fs st !! path = None.
Proof.
  unfold os_Mkdir. destruct (fs st !! path); [done|]. by destruct (negb _ && _).
Qed.

Lemma write_file_other (path data : string) (st : Store) (q : string) :
  q ≠ path → fs (write_file path data st) !! q = fs st !! q.
Proof.
  intros Hq. unfold write_file.
  destruct (fs st !! path) as [[|d]|]; [done|..];
    (destruct (negb _ && _); [|done]); simpl; by rewrite lookup_insert_ne.
Qed.

(** ** Allocation in the ledger *)

Lemma exists_path_insert (st : Store) (p q : string) (n : Node) :
  exists_path st p → exists_path (set_fs (insert q n) st) p.
Proof.
  unfold exists_path. simpl. intros Hp.
  destruct (decide (q = p)) as [->|Hne]; [by rewrite lookup_insert_eq|].
  by rewrite lookup_insert_ne.
Qed.

Lemma exists_path_Mkdir (path : string) (st : Store) (p : string) :
  exists_path st p → exists_path (os_Mkdir path st).2 p.
Proof.
  intros Hp. unfold os_Mkdir. destruct (fs st !! path); [done|].
  destruct (negb _ && _); [|done]. by apply exists_path_insert.
Qed.

Lemma exists_path_write (path data : string) (st : Store) (p : string) :
  exists_path st p → exists_path (write_file path data st) p.
Proof.
  intros Hp. unfold write_file.
  destruct (fs st !! path) as [[|d]|]; [done|..];
    (destruct (negb _ && _); [|done]); by apply exists_path_insert.
Qed.

(** When the ledger can make a process slot, the slot is new, it has the
    next slot name, and nothing else changes. *)
Lemma ledger_NewProcess_ok (dir : string) (st : Store) :
  allocates_slot dir st →
  ledger_NewProcess dir st
  = ((Join [ledger_Processes dir; slot_name (next st)], None),
     set_fs (insert (Join [ledger_Processes dir; slot_name (next st)]) Directory) (bump st))
  ∧ fs st !! Join [ledger_Processes dir; slot_name (next st)] = None.
Proof.
  unfold allocates_slot, ledger_NewProcess.
  set (slot := Join [ledger_Processes dir; slot_name (next st)]). intros Ha.
  pose proof (os_Mkdir_ok slot (bump st)) as Hok.
  destruct (os_Mkdir slot (bump st)) as [[e|] st1]; [done|].
  simpl in Hok. destruct (Hok eq_refl) as [-> Hnew]. done.
Qed.

Lemma exists_path_NewProcess (dir : string) (st : Store) (p : string) :
  exists_path st p → exists_path (ledger_NewProcess dir st).2 p.
Proof.
  intros Hp. unfold ledger_NewProcess.
  pose proof (exists_path_Mkdir (Join [ledger_Processes dir; slot_name (next st)]) (bump st) p Hp) as H.
  by destruct (os_Mkdir _ (bump st)) as [[e|] st1].
Qed.

(** When the ledger can make the entry of a container, the entry is at
    root/<id>, and it is there afterwards. *)
Lemma ledger_NewStateDir_ok (stateRoot id : string) (st : Store) :
  (ledger_NewStateDir stateRoot id st).1.2 = None →
  (ledger_NewStateDir stateRoot id st).1.1 = Join [stateRoot; id]
  ∧ exists_path (ledger_NewStateDir stateRoot id st).2 (Join [stateRoot; id])
  ∧ next (ledger_NewStateDir stateRoot id st).2 = next st.
Proof.
  unfold ledger_NewStateDir.
  pose proof (os_Mkdir_ok (Join [stateRoot; id]) st) as H1.
  destruct (os_Mkdir (Join [stateRoot; id]) st) as [[e|] st1]; [done|].
  simpl in H1. destruct (H1 eq_refl) as [-> _]. clear H1.
  set (st1 := set_fs (insert (Join [stateRoot; id]) Directory) st).
  pose proof (os_Mkdir_ok (ledger_Processes (Join [stateRoot; id])) st1) as H2.
  destruct (os_Mkdir (ledger_Processes (Join [stateRoot; id])) st1) as [[e|] st2]; [done|].
  simpl in H2. destruct (H2 eq_refl) as [-> _]. intros _. split; [done|]. split; [|done].
  apply (exists_path_insert st1). unfold exists_path, st1. simpl.
  by rewrite lookup_insert_eq.
Qed.

Lemma NewContainer_ledger (stateRoot id bundle : string) (w : World) :
  allocates stateRoot id w →
  NewContainer (SD:=ledger) stateRoot id bundle w
  = (Returned (Some (LoadContainer (Join [stateRoot; id]) id bundle), None),
     allocated stateRoot id w).
Proof.
  intros Ha. destruct (ledger_NewStateDir_ok _ _ _ Ha) as (Hdir & _).
  unfold allocates in Ha. unfold NewContainer, allocated, set_store. run.
  destruct (ledger_NewStateDir stateRoot id (store w)) as [[dir err] st].
  simpl in *. by subst.
Qed.

Lemma allocated_entry (stateRoot id : string) (w : World) :
  allocates stateRoot id w →
  exists_path (store (allocated stateRoot id w)) (Join [stateRoot; id])
  ∧ next (store (allocated stateRoot id w)) = next (store w).
Proof. intros Ha. by destruct (ledger_NewStateDir_ok _ _ _ Ha) as (_ & ? & ?). Qed.

(** ** Create, step by step *)

Lemma Create_steps (X : Extern) (r : OCIRuntime) (id : string) (o : CreateOpts) (w : World) :
  allocates (root r) id w →
  let '(initDir, w1) := Create_slot r id w in
  let pidFile := Join [initDir; "pid"] in
  let '(res, w2) := runc_Create X id (Bundle o) (create_opts pidFile o) w1 in
  Create (SD:=ledger) X r id o w =
    match res with
    | Returned None =>
        match runc_ReadPidFile pidFile (store w2) with
        | (pid, None) =>
            match on_newProcess X (Base initDir) pid with
            | None =>
                (Returned
                   (Some (Container_AddProcess (LoadContainer (Join [root r; id]) id (Bundle o))
                            {| p_ID := Base initDir; p_Pid := pid |} true), None), w2)
            | Some _ => (Panicked, w2)
            end
        | (_, Some _) => (Panicked, w2)
        end
    | _ => (Panicked, w2)
    end.
Proof.
  intros Ha. unfold Create, Create_slot.
  unfold mbind at 1. unfold M_bind at 1. rewrite NewContainer_ledger by done.
  run. destruct (ledger_NewProcess _ _) as [[initDir e0] st].
  unfold runc_Create, create_opts.
  destruct (on_Create X _ id (Bundle o) _) as [[e|] written]; simpl; [done|].
  destruct (runc_ReadPidFile _ _) as [pid [e|]]; simpl; [done|].
  unfold newProcess. destruct (on_newProcess X _ pid) as [e|]; done.
Qed.

Lemma Create_slot_keeps_entry (r : OCIRuntime) (id : string) (w : World) :
  allocates (root r) id w →
  exists_path (store (Create_slot r id w).2) (Join [root r; id])
  ∧ calls (Create_slot r id w).2 = calls w.
Proof.
  intros Ha. unfold Create_slot.
  pose proof (exists_path_NewProcess (Join [root r; id]) _ _
                (proj1 (allocated_entry (root r) id w Ha))) as H.
  by destruct (ledger_NewProcess _ _) as [[initDir e0] st].
Qed.

Lemma runc_Create_world (X : Extern) (id bundle : string) (opts : runc_CreateOpts)
    (w : World) (p : string) :
  exists_path (store w) p →
  ∃ w', runc_Create X id bundle opts w = (Returned (on_Create X w id bundle opts).1, w')
        ∧ exists_path (store w') p
        ∧ calls w' = calls w ++ [call_Create id bundle opts]
        ∧ kills w' = kills w.
Proof.
  intros Hp. unfold runc_Create.
  destruct (on_Create X w id bundle opts) as [err [data|]]; eexists; (split; [reflexivity|]).
  - split; [|done]. simpl. by apply exists_path_write.
  - done.
Qed.

(** The PID file that Create hands to the driver is the file "pid" in the
    slot directory root/<id>/processes/<slot>, when that slot is new. *)
Lemma Create_pidfile_target (X : Extern) (r : OCIRuntime) (id : string) (o : CreateOpts)
    (w : World) :
  let slot := Join [ledger_Processes (Join [root r; id]); slot_name (next (store w))] in
  allocates (root r) id w →
  allocates_slot (Join [root r; id]) (store (allocated (root r) id w)) →
  ∃ res w', Create (SD:=ledger) X r id o w = (res, w')
    ∧ calls w' = calls w ++ [call_Create id (Bundle o) (create_opts (Join [slot; "pid"]) o)].
Proof.
  intros slot Ha Hnew. pose proof (Create_steps X r id o w Ha) as Hc.
  pose proof (Create_slot_keeps_entry r id w Ha) as [Hent Hcalls].
  assert ((Create_slot r id w).1 = slot) as Hslot.
  { unfold Create_slot.
    destruct (ledger_NewProcess_ok _ _ Hnew) as [-> _]. simpl.
    pose proof (proj2 (allocated_entry (root r) id w Ha)) as Hn. simpl in Hn.
    unfold slot. by rewrite Hn. }
  destruct (Create_slot r id w) as [initDir w1]. simpl in *. subst initDir.
  destruct (runc_Create_world X id (Bundle o) (create_opts (Join [slot; "pid"]) o) w1 _ Hent)
    as (w2 & Hrun & _ & Hcalls2 & _).
  rewrite Hrun in Hc. rewrite Hcalls in Hcalls2. rewrite Hc.
  destruct (on_Create X w1 id (Bundle o) _).1 as [e|]; [eauto|].
  destruct (runc_ReadPidFile _ _) as [pid [e|]]; [eauto|].
  destruct (on_newProcess X _ pid) as [e|]; eauto.
Qed.

(** ** StartProcess, step by step *)

Lemma StartProcess_steps (X : Extern) (id : string) (r : OCIRuntime) (c : Container)
    (o : CreateProcessOpts) (w : World) :
  let slot := next_slot c w in
  let pidFile := Join [slot; id] in
  allocates_slot (c_StateDir c) (store w) →
  let '(res, w2) := runc_ExecProcess X (c_ID c) (spec o) (exec_opts pidFile o) (with_slot slot w) in
  StartProcess (SD:=ledger) X id r (Some c) o w =
    match res with
    | Returned None =>
        match runc_ReadPidFile pidFile (store w2) with
        | (pid, None) =>
            match on_newProcess X (Base slot) pid with
            | None =>
                let p := {| p_ID := Base slot; p_Pid := pid |} in
                (Returned (Some p, None, Some (Container_AddProcess c p false)), w2)
            | Some e => (Returned (nil_ptr, Some e, Some c), rolled_back slot w2)
            end
        | (_, Some e) => (Returned (nil_ptr, Some e, Some c), rolled_back slot w2)
        end
    | Returned (Some e) => (Returned (nil_ptr, Some e, Some c), rolled_back slot w2)
    | Panicked => (Panicked, w2)
    end.
Proof.
  intros slot pidFile Ha. unfold StartProcess. run.
  destruct (ledger_NewProcess_ok _ _ Ha) as [-> _]. fold (next_slot c w). fold slot. simpl.
  unfold runc_ExecProcess, exec_opts, with_slot. fold pidFile.
  assert (Join [ledger_Processes (c_StateDir c); Base slot] = slot) as Hback.
  { unfold slot, next_slot. by rewrite Base_Join by apply slot_name_name. }
  destruct (on_ExecProcess X _ (c_ID c) (spec o) _) as [[e|] written]; simpl.
  { unfold ledger_DeleteProcess. rewrite Hback. done. }
  destruct (runc_ReadPidFile pidFile _) as [pid [e|]]; simpl.
  { unfold ledger_DeleteProcess. rewrite Hback. done. }
  unfold newProcess. destruct (on_newProcess X _ pid) as [e|]; simpl; [|done].
  unfold ledger_DeleteProcess. rewrite Hback. done.
Qed.

Lemma runc_ExecProcess_world (X : Extern) (id spec : string) (opts : runc_ExecOpts) (w : World) :
  ∃ w', runc_ExecProcess X id spec opts w = (Returned (on_ExecProcess X w id spec opts).1, w')
        ∧ calls w' = calls w ++ [call_ExecProcess id spec opts]
        ∧ kills w' = kills w.
Proof.
  unfold runc_ExecProcess.
  destruct (on_ExecProcess X w id spec opts) as [err [data|]]; eexists; (split; [reflexivity|done]).
Qed.

Lemma rolled_back_gone (slot : string) (w : World) (q : string) :
  under slot q → fs (store (rolled_back slot w)) !! q = None.
Proof. intros Hq. by apply (os_RemoveAll_gone slot (store w)). Qed.

(** ** load and the loop of List *)

Section Listing.
Context {SD : StateDirOps} (X : Extern).

Lemma load_dirs_returns (runcC : runc_Container) (dirs : list string) (container : Container)
    (w : World) :
  ∃ res, load_dirs X runcC dirs container w = (Returned res, w)
         ∧ (res.2 = None → is_Some res.1) ∧ (is_Some res.2 → res.1 = None).
Proof.
  revert container. induction dirs as [|d dirs IH]; intros container; simpl.
  - eexists. split; [reflexivity|]. simpl. split; [eauto|by intros [??]].
  - run. destruct (runc_ReadPidFile _ _) as [pid [e|]].
    { eexists. split; [reflexivity|]. simpl. split; [done|eauto]. }
    unfold newProcess. destruct (on_newProcess X _ pid) as [e|].
    { eexists. split; [reflexivity|]. simpl. split; [done|eauto]. }
    apply IH.
Qed.

(** [load] only reads: it returns, and the world is as before. *)
Lemma load_returns (r : OCIRuntime) (runcC : runc_Container) (w : World) :
  ∃ res, load X r runcC w = (Returned res, w)
         ∧ (res.2 = None → is_Some res.1) ∧ (is_Some res.2 → res.1 = None).
Proof.
  unfold load. run. destruct (ioutil_ReadDir _ _) as [dirs [e|]].
  - eexists. split; [reflexivity|]. simpl. split; [done|eauto].
  - apply load_dirs_returns.
Qed.

Lemma List_loop_fails (r : OCIRuntime) (runcCs : list runc_Container)
    (containers : list (ptr Container)) (w : World) :
  Exists (load_fails X r w) runcCs →
  ∃ e, List_loop X r runcCs containers w = (Returned ([], Some e), w).
Proof.
  revert containers. induction runcCs as [|rc rcs IH]; intros containers Hex.
  { by apply Exists_nil in Hex. }
  simpl. run. destruct (load_returns r rc w) as ([c [e|]] & Hl & H1 & H2); rewrite Hl; simpl.
  { eauto. }
  apply IH. apply Exists_cons in Hex as [(res & Hl' & He)|Hex]; [|done].
  rewrite Hl in Hl'. simplify_eq. by destruct He.
Qed.

Lemma List_loop_all (r : OCIRuntime) (runcCs : list runc_Container)
    (containers : list (ptr Container)) (w : World) :
  ¬ Exists (load_fails X r w) runcCs →
  ∃ cs, List_loop X r runcCs containers w = (Returned (containers ++ cs, None), w)
        ∧ Forall2 (loads X r w) runcCs cs.
Proof.
  revert containers. induction runcCs as [|rc rcs IH]; intros containers Hno.
  { exists []. simpl. by rewrite app_nil_r. }
  simpl. run. destruct (load_returns r rc w) as ([c [e|]] & Hl & H1 & H2); rewrite Hl; simpl.
  { destruct Hno. apply Exists_cons_hd. eexists. split; [done|]. simpl. eauto. }
  destruct (IH (containers ++ [c])) as (cs & Hcs & Hall).
  { intros Hex. apply Hno. by apply Exists_cons_tl. }
  exists (c :: cs). rewrite Hcs. rewrite <- app_assoc. simpl. split; [done|].
  constructor; [|done]. split; [by apply H1|done].
Qed.

End Listing.

(** ** Reading a process collection *)

Lemma entry_of_next_slot (c : Container) (w : World) :
  entry_of (ledger_Processes (c_StateDir c)) (next_slot c w) = true.
Proof.
  unfold entry_of, next_slot. rewrite Base_Join by apply slot_name_name.
  rewrite (slot_name_name (next (store w))). simpl. apply String.eqb_refl.
Qed.

Lemma next_slot_no_pid (c : Container) (w : World) :
  Join [next_slot c w; "pid"] ≠ next_slot c w.
Proof.
  intros E. apply (f_equal Base) in E. rewrite Base_Join in E by done.
  unfold next_slot in E. rewrite Base_Join in E by apply slot_name_name.
  by apply (slot_name_not_pid (next (store w))).
Qed.

Lemma elem_of_ReadDir (dir : string) (st : Store) (p : string) :
  fs st !! dir = Some Directory → exists_path st p → entry_of dir p = true →
  ∃ dirs, ioutil_ReadDir dir st = (dirs, None) ∧ p ∈ dirs.
Proof.
  intros Hdir [x Hx] He. unfold ioutil_ReadDir. rewrite Hdir. eexists. split; [done|].
  rewrite merge_sort_Permutation. apply list_elem_of_filter. split; [done|].
  apply list_elem_of_fmap. exists (p, x). split; [done|]. by apply elem_of_map_to_list.
Qed.

Lemma ReadDir_not_Dir (dir : string) (st : Store) :
  fs st !! dir ≠ Some Directory → ∃ e, ioutil_ReadDir dir st = ([], Some e).
Proof.
  intros H. unfold ioutil_ReadDir. destruct (fs st !! dir) as [[|data]|]; [done|eauto..].
Qed.

(** One slot whose PID file cannot be read makes the loop of [load] fail. *)
Lemma load_dirs_fails (X : Extern) (runcC : runc_Container)
    (dirs : list string) (container : Container) (w : World) (d : string) :
  d ∈ dirs → is_Some (runc_ReadPidFile (Join [d; "pid"]) (store w)).2 →
  ∃ e, load_dirs X runcC dirs container w = (Returned (nil_ptr, Some e), w).
Proof.
  intros Hd Hfail. revert container.
  induction dirs as [|d0 dirs IH]; intros container; [by apply elem_of_nil in Hd|].
  simpl. run. destruct (runc_ReadPidFile (Join [d0; "pid"]) (store w)) as [pid [e|]] eqn:E.
  { eauto. }
  unfold newProcess. destruct (on_newProcess X _ pid) as [e|]; [eauto|].
  apply IH. apply elem_of_cons in Hd as [->|Hd]; [|done].
  rewrite E in Hfail. by destruct Hfail.
Qed.

(** The driver's exec changes at most the PID file it was handed. *)
Lemma runc_ExecProcess_store (X : Extern) (id spec : string) (opts : runc_ExecOpts) (w : World) :
  ∃ w', runc_ExecProcess X id spec opts w = (Returned (on_ExecProcess X w id spec opts).1, w')
        ∧ (∀ q, q ≠ eo_PidFile opts → fs (store w') !! q = fs (store w) !! q)
        ∧ (∀ q, exists_path (store w) q → exists_path (store w') q).
Proof.
  unfold runc_ExecProcess.
  destruct (on_ExecProcess X w id spec opts) as [err [data|]]; eexists; (split; [reflexivity|]).
  - split.
    + intros q Hq. simpl. by rewrite write_file_other.
    + intros q Hq. simpl. by apply exists_path_write.
  - done.
Qed.

(** ** GetProcess, Pause and Resume *)

(** GetProcess is the lookup in the container's process set. *)
Lemma GetProcess_lookup (r : OCIRuntime) (c : Container) (id : string) (w : World) :
  GetProcess r (Some c) id w = (Returned (Container_GetProcess c id), w).
Proof. done. Qed.

(** Both hand the container's id to the driver and return its answer. *)
Lemma Pause_Resume_pass_through (X : Extern) (r : OCIRuntime)
    (c : Container) (w : World) :
  Pause X r (Some c) w = (Returned (on_Pause X w (c_ID c)), log_call (call_Pause (c_ID c)) w)
  ∧ Resume X r (Some c) w
    = (Returned (on_Resume X w (c_ID c)), log_call (call_Resume (c_ID c)) w).
Proof. done. Qed.

(** ** Paths below a directory *)

Lemma elems_normal (p : string) : normal (rooted p) (elems p).
Proof. apply normal_fold; [done|apply split_sep_no_sep]. Qed.

(** Kept elements render as themselves, joined by the separator. *)
Lemma render_kept (rt : bool) (acc : list string) :
  acc ≠ [] → normal rt acc →
  let out := (if rt then "/" else "") +:+ String.concat "/" (rev acc) in
  render rt (rev acc) = out ∧ rooted out = rt ∧ elems out = acc.
Proof.
  intros Hd Hn. set (st := rev acc).
  assert (st ≠ []) as Hst by (unfold st; by destruct acc using rev_ind; rewrite ?rev_app_distr).
  assert (Forall (λ e, e ≠ "" ∧ has_sep e = false) st) as Hk.
  { unfold st. apply Forall_rev. by apply (normal_kept rt). }
  destruct (rooted_concat st Hst Hk) as [Hr Hne].
  assert (Forall (λ e, has_sep e = false) st) as Hs.
  { eapply Forall_impl; [done|]. by intros ? [? ?]. }
  assert (fold_left (clean_step rt) st [] = acc) as Hf.
  { rewrite fold_normal; unfold st; rewrite rev_involutive, app_nil_r; done. }
  simpl. split_and!.
  - unfold render. destruct rt; [done|]. simpl. destruct (String.concat "/" st); done.
  - destruct rt; [done|]. by rewrite app_empty_l.
  - unfold elems.
    assert (rooted ((if rt then "/" else "") +:+ String.concat "/" st) = rt) as ->.
    { destruct rt; [done|]. by rewrite app_empty_l. }
    destruct rt.
    + change ("/" +:+ String.concat "/" st) with (String "/" (String.concat "/" st)).
      simpl. by rewrite split_concat.
    + rewrite app_empty_l. by rewrite split_concat.
Qed.

Lemma elems_Clean (p : string) :
  elems p ≠ [] → elems (Clean p) = elems p ∧ rooted (Clean p) = rooted p.
Proof.
  intros Hne. destruct (render_kept (rooted p) (elems p) Hne (elems_normal p)) as (H1 & H2 & H3).
  unfold Clean. fold (elems p). rewrite H1. done.
Qed.

Lemma rooted_app (p t : string) : p ≠ "" → rooted (p +:+ t) = rooted p.
Proof. by destruct p. Qed.

Lemma elems_snoc (p m : string) : p ≠ "" → name m → elems (p +:+ String "/" m) = m :: elems p.
Proof.
  intros Hp Hm. pose proof (name_inv m Hm) as (_ & Hs & _). unfold elems.
  rewrite rooted_app by done. rewrite split_sep_app, (split_sep_plain m) by done.
  rewrite fold_left_app. simpl. by apply clean_step_name.
Qed.

Lemma elems_name (m : string) : name m → elems m = [m].
Proof.
  intros Hm. pose proof (name_inv m Hm) as (_ & Hs & _). unfold elems.
  rewrite split_sep_plain by done. simpl. by apply clean_step_name.
Qed.

Lemma proper_nonempty (q : string) : proper q → q ≠ "".
Proof. intros [_ H] ->. by apply H. Qed.

Lemma Clean_snoc (q m : string) :
  proper q → name m → Clean (q +:+ String "/" m) = q +:+ String "/" m.
Proof.
  intros Hq Hm. pose proof (proper_nonempty q Hq) as Hne. destruct Hq as [Hc He].
  pose proof (name_inv m Hm) as (Hm1 & Hm2 & Hm3 & Hm4).
  unfold Clean. fold (elems (q +:+ String "/" m)). rewrite elems_snoc by done.
  rewrite rooted_app by done.
  assert (normal (rooted q) (m :: elems q)) as Hn.
  { simpl. split_and!; [done..| |by apply elems_normal]. done. }
  destruct (render_kept (rooted q) (m :: elems q) ltac:(done) Hn) as (-> & _).
  destruct (render_kept (rooted q) (elems q) He (elems_normal q)) as (Hr & _).
  simpl. rewrite concat_snoc.
  - rewrite <- string_app_assoc. rewrite <- Hr.
    change (render (rooted q) (rev (elems q))) with (Clean q). by rewrite Hc.
  - intros E. apply He. by rewrite <- (rev_involutive (elems q)), E.
Qed.

(** A directory joined with a name is a proper path. *)
Lemma Join_proper (d n : string) : name n → proper (Join [d; n]).
Proof.
  intros Hn. pose proof (name_inv n Hn) as (Hne & _).
  rewrite Join_dir_name by done.
  set (p := if decide (d = "") then n else d +:+ String "/" n).
  assert (elems p ≠ []) as He.
  { unfold p. case_decide; [by rewrite elems_name|by rewrite elems_snoc]. }
  split; [apply Clean_idempotent|]. by rewrite (proj1 (elems_Clean p He)).
Qed.

(** Joining a name to a proper path appends it. *)
Lemma Join_proper_name (q m : string) : proper q → name m → Join [q; m] = q +:+ String "/" m.
Proof.
  intros Hq Hm. pose proof (name_inv m Hm) as (Hne & _).
  rewrite Join_dir_name by done. rewrite decide_False by (by apply proper_nonempty).
  by apply Clean_snoc.
Qed.

Lemma dir_part_plain (m : string) : has_sep m = false → dir_part m = "".
Proof.
  destruct m as [|b m]; [done|]. simpl. intros [Hb Hm]%orb_false_iff. by rewrite Hb, Hm.
Qed.

Lemma dir_part_snoc (q m : string) : has_sep m = false → dir_part (q +:+ String "/" m) = q +:+ "/".
Proof.
  intros Hm. induction q as [|a q IH].
  - rewrite !app_empty_l. simpl. by rewrite dir_part_plain.
  - rewrite !app_String. simpl. by rewrite has_sep_app_sep, orb_true_r, IH.
Qed.

Lemma Clean_trailing_sep (q : string) : q ≠ "" → Clean (q +:+ "/") = Clean q.
Proof.
  intros Hq. unfold Clean. rewrite rooted_app by done.
  change "/" with (String "/" ""). rewrite split_sep_app. by rewrite fold_left_app.
Qed.

(** filepath.Dir(filepath.Join(q, m)) is [q] for a proper path [q] and a
    name [m]. *)
Lemma Dir_Join (q m : string) : proper q → name m → Dir (Join [q; m]) = q.
Proof.
  intros Hq Hm. pose proof (name_inv m Hm) as (_ & Hs & _).
  rewrite Join_proper_name by done. unfold Dir. rewrite dir_part_snoc by done.
  rewrite Clean_trailing_sep by (by apply proper_nonempty). by destruct Hq.
Qed.

Lemma string_prefix_app (s t : string) : String.prefix s (s +:+ t) = true.
Proof.
  induction s as [|a s IH]; [by destruct t|]. rewrite app_String. simpl.
  by destruct (ascii_dec a a).
Qed.

Lemma string_prefix_inv (s p : string) : String.prefix s p = true → ∃ t, p = s +:+ t.
Proof.
  revert p. induction s as [|a s IH]; intros p H; [by exists p|].
  destruct p as [|b p]; [done|]. simpl in H. destruct (ascii_dec a b) as [->|]; [|done].
  destruct (IH p H) as [t ->]. by exists t.
Qed.

Lemma under_Join (q m : string) : proper q → name m → under q (Join [q; m]).
Proof.
  intros Hq Hm. right. rewrite Join_proper_name by done.
  change (String "/" m) with ("/" +:+ m). rewrite <- string_app_assoc. apply string_prefix_app.
Qed.

Lemma under_trans (a b c : string) : under a b → under b c → under a c.
Proof.
  intros [->|Hab] Hbc; [done|]. destruct Hbc as [->|Hbc]; [by right|].
  right. apply string_prefix_inv in Hab as [t ->]. apply string_prefix_inv in Hbc as [u ->].
  replace ((((a +:+ "/") +:+ t) +:+ "/") +:+ u) with ((a +:+ "/") +:+ (t +:+ "/" +:+ u))
    by (by rewrite !string_app_assoc).
  apply string_prefix_app.
Qed.

Lemma string_length_app (s t : string) :
  String.length (s +:+ t) = String.length s + String.length t.
Proof. induction s as [|a s IH]; [done|]. rewrite app_String. simpl. by rewrite IH. Qed.

Lemma under_length (a b : string) : under a b → String.length a ≤ String.length b.
Proof.
  intros [->|H]; [done|]. apply string_prefix_inv in H as [t ->]. rewrite !string_length_app. lia.
Qed.

Lemma Join_longer (q m : string) :
  proper q → name m → String.length q < String.length (Join [q; m]).
Proof.
  intros Hq Hm. rewrite Join_proper_name by done. rewrite string_length_app. simpl. lia.
Qed.

(** ** The layout of the ledger *)

Lemma vacant_spec (dir : string) (st : Store) :
  vacant dir st ↔ ∀ p, under dir p → fs st !! p = None.
Proof.
  unfold vacant. rewrite forallb_forall. split.
  - intros H p Hp. destruct (fs st !! p) as [x|] eqn:E; [|done].
    assert (In p (map_to_list (fs st)).*1) as Hin.
    { apply list_elem_of_In, list_elem_of_fmap. exists (p, x). split; [done|].
      by apply elem_of_map_to_list. }
    apply H in Hin. apply negb_true_iff, bool_decide_eq_false in Hin. done.
  - intros H p Hin. apply negb_true_iff, bool_decide_eq_false. intros Hu.
    apply list_elem_of_In, list_elem_of_fmap in Hin as ([q x] & -> & Hq).
    apply elem_of_map_to_list in Hq. simpl in *. by rewrite (H q Hu) in Hq.
Qed.

Lemma processes_proper (dir : string) : proper (ledger_Processes dir).
Proof. by apply Join_proper. Qed.

Lemma slot_proper (dir : string) (n : nat) : proper (slot_of dir n).
Proof. apply Join_proper, slot_name_name. Qed.

(** The process collection, the slots and their PID files lie below the
    entry of the container, and the PID file below its slot. *)
Lemma layout_under (entry : string) (n : nat) :
  proper entry →
  under entry (ledger_Processes entry) ∧ under entry (slot_of entry n)
  ∧ under entry (Join [slot_of entry n; "pid"])
  ∧ under (slot_of entry n) (Join [slot_of entry n; "pid"]).
Proof.
  intros He.
  assert (under entry (ledger_Processes entry)) as H1 by (by apply under_Join).
  assert (under (ledger_Processes entry) (slot_of entry n)) as H2.
  { apply under_Join; [apply processes_proper|apply slot_name_name]. }
  assert (under (slot_of entry n) (Join [slot_of entry n; "pid"])) as H3.
  { apply under_Join; [apply slot_proper|done]. }
  split_and!; [done|by eapply under_trans|eapply under_trans; [|done]; by eapply under_trans|done].
Qed.

Lemma layout_distinct (entry : string) (n : nat) :
  proper entry →
  ledger_Processes entry ≠ entry ∧ slot_of entry n ≠ entry
  ∧ slot_of entry n ≠ ledger_Processes entry
  ∧ Join [slot_of entry n; "pid"] ≠ entry
  ∧ Join [slot_of entry n; "pid"] ≠ ledger_Processes entry
  ∧ Join [slot_of entry n; "pid"] ≠ slot_of entry n.
Proof.
  intros He.
  pose proof (Join_longer entry "processes" He ltac:(done)) as H1.
  pose proof (Join_longer (ledger_Processes entry) (slot_name n) (processes_proper entry)
                (slot_name_name n)) as H2.
  pose proof (Join_longer (slot_of entry n) "pid" (slot_proper entry n) ltac:(done)) as H3.
  fold (ledger_Processes entry) in H1. fold (slot_of entry n) in H2.
  split_and!; intros E; rewrite E in *; lia.
Qed.

(** The PID file of a slot, spelled out: root/<id>/processes/<slot>/pid. *)
Lemma layout_path (entry : string) (n : nat) :
  proper entry →
  Join [slot_of entry n; "pid"] = entry +:+ "/processes/" +:+ slot_name n +:+ "/pid".
Proof.
  intros He. rewrite Join_proper_name by (apply slot_proper || done).
  unfold slot_of. rewrite Join_proper_name by (apply processes_proper || apply slot_name_name).
  unfold ledger_Processes. rewrite Join_proper_name by done.
  by rewrite !string_app_assoc.
Qed.

(** In a vacant place below a directory that is there, the ledger makes
    the entry and its process collection. *)
Lemma NewStateDir_vacant (stateRoot id : string) (st : Store) :
  name id → parent_exists (Join [stateRoot; id]) st = true → vacant (Join [stateRoot; id]) st →
  ledger_NewStateDir stateRoot id st
  = ((Join [stateRoot; id], None),
     set_fs (insert (ledger_Processes (Join [stateRoot; id])) Directory)
       (set_fs (insert (Join [stateRoot; id]) Directory) st)).
Proof.
  intros Hid Hpar Hv. set (entry := Join [stateRoot; id]) in *.
  assert (proper entry) as He by (by apply Join_proper).
  rewrite vacant_spec in Hv.
  destruct (layout_under entry 0 He) as (U1 & _). destruct (layout_distinct entry 0 He) as (D1 & _).
  unfold ledger_NewStateDir. fold entry. unfold os_Mkdir at 1.
  rewrite (Hv entry (under_refl _)), Hpar.
  assert (String.eqb entry "" = false) as -> by (by apply String.eqb_neq, proper_nonempty).
  simpl. unfold os_Mkdir. simpl. rewrite lookup_insert_ne by done. rewrite (Hv _ U1).
  assert (String.eqb (ledger_Processes entry) "" = false) as ->
    by (apply String.eqb_neq, proper_nonempty, processes_proper).
  assert (parent_exists (ledger_Processes entry) (set_fs (insert entry Directory) st) = true) as ->.
  { apply bool_decide_eq_true. right; right. unfold ledger_Processes.
    rewrite Dir_Join by done. simpl. by rewrite lookup_insert_eq. }
  done.
Qed.

Lemma NewProcess_vacant (dir : string) (st : Store) :
  fs st !! ledger_Processes dir = Some Directory → fs st !! slot_of dir (next st) = None →
  ledger_NewProcess dir st
  = ((slot_of dir (next st), None), set_fs (insert (slot_of dir (next st)) Directory) (bump st)).
Proof.
  intros Hp Hs. unfold ledger_NewProcess. fold (slot_of dir (next st)). unfold os_Mkdir. simpl.
  rewrite Hs.
  assert (String.eqb (slot_of dir (next st)) "" = false) as ->
    by (apply String.eqb_neq, proper_nonempty, slot_proper).
  assert (parent_exists (slot_of dir (next st)) (bump st) = true) as ->.
  { apply bool_decide_eq_true. right; right. unfold slot_of.
    rewrite Dir_Join by (apply processes_proper || apply slot_name_name). done. }
  done.
Qed.

(** A slot that cannot be made leaves the files as they are. *)
Lemma NewProcess_fails_fs (dir : string) (st : Store) :
  (ledger_NewProcess dir st).1.2 ≠ None → fs (ledger_NewProcess dir st).2 = fs st.
Proof.
  unfold ledger_NewProcess, os_Mkdir. simpl.
  destruct (fs st !! _); [done|]. by destruct (negb _ && _).
Qed.

(** Removing a directory gives back the files as they were before anything
    was put at or below it. *)
Lemma RemoveAll_restores (dir : string) (st : Store) (f0 : gmap string Node) :
  (∀ p, under dir p → f0 !! p = None) →
  (∀ p, ¬ under dir p → fs st !! p = f0 !! p) →
  fs (os_RemoveAll dir st).2 = f0.
Proof.
  intros Hv Hother. apply map_eq. intros p. destruct (decide (under dir p)) as [Hu|Hu].
  - rewrite os_RemoveAll_gone by done. by rewrite Hv.
  - rewrite os_RemoveAll_other by done. by apply Hother.
Qed.

(** ** Create in a vacant place *)

Lemma Create_slot_vacant (r : OCIRuntime) (id : string) (w : World) :
  let entry := Join [root r; id] in
  name id → parent_exists entry (store w) = true → vacant entry (store w) →
  allocates (root r) id w
  ∧ Create_slot r id w
    = (slot_of entry (next (store w)),
       {| store := {| fs := <[slot_of entry (next (store w)) := Directory]>
                              (<[ledger_Processes entry := Directory]>
                                 (<[entry := Directory]> (fs (store w))));
                      next := S (next (store w)) |};
          calls := calls w; kills := kills w |}).
Proof.
  intros entry Hid Hpar Hv. pose proof (NewStateDir_vacant (root r) id (store w) Hid Hpar Hv) as Hn.
  fold entry in Hn.
  assert (proper entry) as He by (by apply Join_proper).
  split; [unfold allocates; by rewrite Hn|].
  unfold Create_slot, allocated, set_store. simpl. rewrite Hn. simpl.
  rewrite vacant_spec in Hv.
  destruct (layout_under entry (next (store w)) He) as (U1 & U2 & _).
  destruct (layout_distinct entry (next (store w)) He) as (D1 & D2 & D3 & _).
  fold entry. rewrite NewProcess_vacant.
  - done.
  - simpl. by rewrite lookup_insert_eq.
  - simpl. rewrite !lookup_insert_ne by done. by apply Hv.
Qed.

(** The driver's write of the PID file into the new slot takes place. *)
Lemma write_pidfile (entry data : string) (n : nat) (f0 : gmap string Node) (m : nat) :
  proper entry → (∀ p, under entry p → f0 !! p = None) →
  let slot := slot_of entry n in
  let f := <[slot := Directory]> (<[ledger_Processes entry := Directory]> (<[entry := Directory]> f0)) in
  write_file (Join [slot; "pid"]) data {| fs := f; next := m |}
  = {| fs := <[Join [slot; "pid"] := File data]> f; next := m |}.
Proof.
  intros He Hv slot f.
  destruct (layout_under entry n He) as (U1 & U2 & U3 & _).
  destruct (layout_distinct entry n He) as (D1 & D2 & D3 & D4 & D5 & D6).
  unfold write_file. simpl.
  assert (f !! Join [slot; "pid"] = None) as ->.
  { unfold f. rewrite !lookup_insert_ne by done. by apply Hv. }
  assert (String.eqb (Join [slot; "pid"]) "" = false) as ->
    by (by apply String.eqb_neq, Join_nonempty).
  assert (parent_exists (Join [slot; "pid"]) {| fs := f; next := m |} = true) as ->.
  { apply bool_decide_eq_true. right; right.
    rewrite Dir_Join by (apply slot_proper || done). simpl. unfold f. by rewrite lookup_insert_eq. }
  done.
Qed.

(** Create in a vacant place, by the answers of the driver and of
    [newProcess]. *)
Lemma Create_run (X : Extern) (r : OCIRuntime) (id : string) (o : CreateOpts) (w : World) :
  let entry := Join [root r; id] in
  let slot := slot_of entry (next (store w)) in
  let opts := create_opts (Join [slot; "pid"]) o in
  name id → parent_exists entry (store w) = true → vacant entry (store w) →
  Create (SD:=ledger) X r id o w
  = match on_Create X (Create_slot r id w).2 id (Bundle o) opts with
    | (None, Some data) =>
        match Atoi data with
        | Some pid =>
            match on_newProcess X (slot_name (next (store w))) pid with
            | None => (Returned (Some (init_container id (Bundle o) entry (next (store w)) pid), None),
                       {| store := created entry data (store w);
                          calls := calls w ++ [call_Create id (Bundle o) opts];
                          kills := kills w |})
            | Some _ => (Panicked, {| store := created entry data (store w);
                          calls := calls w ++ [call_Create id (Bundle o) opts];
                          kills := kills w |})
            end
        | None => (Panicked, {| store := created entry data (store w);
                          calls := calls w ++ [call_Create id (Bundle o) opts];
                          kills := kills w |})
        end
    | (_, written) =>
        (Panicked,
         let w1 := log_call (call_Create id (Bundle o) opts) (Create_slot r id w).2 in
         match written with
         | Some data => set_store (write_file (Join [slot; "pid"]) data) w1
         | None => w1
         end)
    end.
Proof.
  intros entry slot opts Hid Hpar Hv.
  destruct (Create_slot_vacant r id w Hid Hpar Hv) as [Ha Hslot]. fold entry slot in Hslot.
  pose proof (Create_steps X r id o w Ha) as Hc. rewrite Hslot in Hc. rewrite Hslot.
  cbn [fst snd]. unfold opts.
  assert (proper entry) as He by (by apply Join_proper).
  pose proof (proj1 (vacant_spec _ _) Hv) as Hv'.
  unfold runc_Create in Hc.
  destruct (on_Create X _ id (Bundle o) _) as [err written].
  unfold set_store, log_call in *. cbn [store calls kills co_Pidfile create_opts] in *.
  destruct err as [e|]; [by rewrite Hc|].
  destruct written as [data|].
  - pose proof (write_pidfile entry data (next (store w)) (fs (store w)) (S (next (store w))) He Hv') as Hw.
    cbv zeta in Hw. fold slot in Hw. rewrite Hw in Hc. rewrite Hc.
    unfold runc_ReadPidFile. cbn [store fs]. rewrite lookup_insert_eq.
    assert (Base slot = slot_name (next (store w))) as ->.
    { unfold slot, slot_of. apply Base_Join, slot_name_name. }
    unfold created. fold slot.
    destruct (Atoi data) as [pid|]; [|done].
    destruct (on_newProcess X _ pid); done.
  - rewrite Hc. unfold runc_ReadPidFile. cbn [store fs].
    destruct (layout_under entry (next (store w)) He) as (U1 & U2 & U3 & _).
    destruct (layout_distinct entry (next (store w)) He) as (D1 & D2 & D3 & D4 & D5 & D6).
    fold slot in U3, D4, D5, D6.
    rewrite !lookup_insert_ne by done. rewrite (Hv' _ U3). done.
Qed.

(** A Create that returned a container in a vacant place: the driver wrote
    a PID, and the container and the world are these. *)
Lemma Create_run_inv (X : Extern) (r : OCIRuntime) (id : string) (o : CreateOpts) (w : World)
    (c : Container) (w1 : World) :
  let entry := Join [root r; id] in
  name id → parent_exists entry (store w) = true → vacant entry (store w) →
  Create (SD:=ledger) X r id o w = (Returned (Some c, None), w1) →
  ∃ data pid,
    Atoi data = Some pid ∧ on_newProcess X (slot_name (next (store w))) pid = None
    ∧ c = init_container id (Bundle o) entry (next (store w)) pid
    ∧ store w1 = created entry data (store w)
    ∧ calls w1 = calls w ++ [call_Create id (Bundle o)
                               (create_opts (Join [slot_of entry (next (store w)); "pid"]) o)]
    ∧ kills w1 = kills w.
Proof.
  intros entry Hid Hpar Hv. rewrite (Create_run X r id o w Hid Hpar Hv). fold entry.
  destruct (on_Create X _ id (Bundle o) _) as [[e|] [data|]]; cbn beta iota; try done.
  destruct (Atoi data) as [pid|] eqn:Ed; cbn beta iota; [|done].
  destruct (on_newProcess X _ pid) as [e|] eqn:E; cbn beta iota; [done|].
  intros [= <- <-]. by exists data, pid.
Qed.

Lemma marked_init_init_container (id bundle entry : string) (n : nat) (pid : Z) :
  marked_init (init_container id bundle entry n pid) = [ {| p_ID := slot_name n; p_Pid := pid |} ].
Proof.
  unfold marked_init, init_container. simpl.
  change (<[slot_name n := ({| p_ID := slot_name n; p_Pid := pid |}, true)]> ∅
          : gmap string (Process * bool))
    with ({[ slot_name n := ({| p_ID := slot_name n; p_Pid := pid |}, true) ]}
          : gmap string (Process * bool)).
  by rewrite map_to_list_singleton.
Qed.




(** ** Reading the ledger *)

Lemma ReadDir_elems (dir : string) (st : Store) (dirs : list string) :
  ioutil_ReadDir dir st = (dirs, None) →
  fs st !! dir = Some Directory ∧ NoDup dirs
  ∧ ∀ p, p ∈ dirs ↔ exists_path st p ∧ entry_of dir p = true.
Proof.
  unfold ioutil_ReadDir. destruct (fs st !! dir) as [[|data]|]; [|done..].
  intros [= <-]. split; [done|]. split.
  - rewrite merge_sort_Permutation. apply NoDup_filter, NoDup_fst_map_to_list.
  - intros p. rewrite merge_sort_Permutation, list_elem_of_filter, list_elem_of_fmap. split.
    + intros [He ([q x] & -> & Hq)]. apply elem_of_map_to_list in Hq. split; [by exists x|done].
    + intros [[x Hx] He]. split; [done|]. exists (p, x). split; [done|].
      by apply elem_of_map_to_list.
Qed.

Lemma entry_of_inv (dir p : string) :
  entry_of dir p = true → name (Base p) ∧ Join [dir; Base p] = p.
Proof.
  unfold entry_of. intros [H1 H2]%andb_true_iff. by apply String.eqb_eq in H2.
Qed.

Lemma entry_of_slot (dir : string) (n : nat) : entry_of (ledger_Processes dir) (slot_of dir n) = true.
Proof.
  unfold entry_of, slot_of. rewrite Base_Join by apply slot_name_name.
  rewrite (slot_name_name n). simpl. apply String.eqb_refl.
Qed.

Lemma entry_of_below (dir p : string) :
  proper dir → entry_of dir p = true →
  Dir p = dir ∧ under dir p ∧ String.length dir < String.length p.
Proof.
  intros Hd [Hn <-]%entry_of_inv. split_and!.
  - by apply Dir_Join.
  - by apply under_Join.
  - by apply Join_longer.
Qed.

(** The entries of a directory have different base names. *)
Lemma ReadDir_Base_NoDup (dir : string) (st : Store) (dirs : list string) :
  ioutil_ReadDir dir st = (dirs, None) → NoDup (Base <$> dirs).
Proof.
  intros (_ & Hnd & Hin)%ReadDir_elems. apply NoDup_fmap_2_strong; [|done].
  intros p q [_ Hp]%Hin [_ Hq]%Hin E.
  apply entry_of_inv in Hp as [_ <-]. apply entry_of_inv in Hq as [_ <-]. by rewrite E.
Qed.

Lemma only_elem {A : Type} (l : list A) (a : A) :
  NoDup l → (∀ x, x ∈ l ↔ x = a) → l = [a].
Proof.
  intros Hnd H. destruct l as [|x l].
  { pose proof (proj2 (H a) eq_refl) as Ha. by apply elem_of_nil in Ha. }
  assert (x = a) as -> by (apply H; left).
  destruct l as [|y l]; [done|].
  assert (y = a) as -> by (apply H; right; left).
  apply NoDup_cons in Hnd as [Hn _]. destruct Hn. left.
Qed.

(** The process collection of a container just created has one entry, its
    init slot. *)
Lemma ReadDir_created (entry data : string) (st : Store) :
  proper entry → (∀ p, under entry p → fs st !! p = None) →
  ioutil_ReadDir (ledger_Processes entry) (created entry data st)
  = ([slot_of entry (next st)], None).
Proof.
  intros He Hv. set (procs := ledger_Processes entry). set (slot := slot_of entry (next st)).
  destruct (layout_under entry (next st) He) as (U1 & U2 & U3 & _).
  destruct (layout_distinct entry (next st) He) as (D1 & D2 & D3 & D4 & D5 & D6).
  fold procs slot in U1, U2, U3, D1, D2, D3, D4, D5, D6.
  assert (fs (created entry data st) !! procs = Some Directory) as Hp.
  { simpl. fold slot procs. rewrite !lookup_insert_ne by done. by rewrite lookup_insert_eq. }
  assert (∃ dirs, ioutil_ReadDir procs (created entry data st) = (dirs, None)) as [dirs E].
  { unfold ioutil_ReadDir. rewrite Hp. eauto. }
  rewrite E. destruct (ReadDir_elems _ _ _ E) as (_ & Hnd & Hin). f_equal.
  apply only_elem; [done|]. intros p. rewrite Hin. split.
  - intros [[x Hx] Hent].
    destruct (entry_of_below procs p (processes_proper entry) Hent) as (Hdir & Hu & Hlen).
    simpl in Hx. fold slot procs in Hx.
    destruct (decide (p = Join [slot; "pid"])) as [->|N1].
    { rewrite (Dir_Join slot "pid" (slot_proper entry (next st)) eq_refl) in Hdir. done. }
    destruct (decide (p = slot)) as [->|N2]; [done|].
    destruct (decide (p = procs)) as [->|N3]; [lia|].
    destruct (decide (p = entry)) as [->|N4].
    { apply under_length in U1. lia. }
    rewrite !lookup_insert_ne in Hx by done.
    rewrite (Hv p) in Hx; [done|]. exact (under_trans _ _ _ U1 Hu).
  - intros ->. split; [|apply entry_of_slot]. exists Directory. simpl. fold slot procs.
    rewrite lookup_insert_ne by done. by rewrite lookup_insert_eq.
Qed.

Lemma ReadPidFile_ok (path : string) (st : Store) (pid : Z) :
  runc_ReadPidFile path st = (pid, None) →
  ∃ data, fs st !! path = Some (File data) ∧ Atoi data = Some pid.
Proof.
  unfold runc_ReadPidFile. destruct (fs st !! path) as [[|data]|]; [done| |done].
  destruct (Atoi data) as [n|] eqn:E; [|done]. intros [= <-]. eauto.
Qed.

(** A process is marked init when the process set has it with the mark. *)
Lemma elem_of_marked_init (c : Container) (q : Process) :
  q ∈ marked_init c ↔ ∃ k, c_processes c !! k = Some (q, true).
Proof.
  unfold marked_init. rewrite list_elem_of_fmap. split.
  - intros ([q' b] & Hq & [Hb ([k v] & Hv & Hk)%list_elem_of_fmap]%list_elem_of_filter).
    simpl in *. subst. apply elem_of_map_to_list in Hk. eauto.
  - intros [k Hk]. exists (q, true). split; [done|]. apply list_elem_of_filter. split; [done|].
    apply list_elem_of_fmap. exists (k, (q, true)). split; [done|]. by apply elem_of_map_to_list.
Qed.

(** What the loop of [load] has done when it returns a container: one
    process for each directory, under its base name, with the PID read from
    its file "pid"; the other processes are those the loop started with. *)
Lemma load_dirs_spec (X : Extern) (rc : runc_Container) (dirs : list string)
    (c0 c : Container) (w w' : World) :
  NoDup (Base <$> dirs) →
  load_dirs X rc dirs c0 w = (Returned (Some c, None), w') →
  c_ID c = c_ID c0 ∧ c_Bundle c = c_Bundle c0 ∧ c_StateDir c = c_StateDir c0
  ∧ (∀ d, d ∈ dirs →
       ∃ pid, runc_ReadPidFile (Join [d; "pid"]) (store w) = (pid, None)
              ∧ on_newProcess X (Base d) pid = None
              ∧ c_processes c !! Base d
                = Some ({| p_ID := Base d; p_Pid := pid |}, bool_decide (pid = rc_Pid rc)))
  ∧ (∀ k, k ∉ Base <$> dirs → c_processes c !! k = c_processes c0 !! k).
Proof.
  revert c0. induction dirs as [|d dirs IH]; intros c0 Hnd Hl.
  { simpl in Hl. injection Hl as <- <-. split_and!; try done. by intros d Hd%elem_of_nil. }
  rewrite fmap_cons in Hnd. apply NoDup_cons in Hnd as [Hd Hnd].
  simpl in Hl. revert Hl. run.
  destruct (runc_ReadPidFile (Join [d; "pid"]) (store w)) as [pid [e|]] eqn:E; [done|].
  unfold newProcess. destruct (on_newProcess X (Base d) pid) as [e|] eqn:En; [done|]. simpl.
  intros Hl. destruct (IH _ Hnd Hl) as (H1 & H2 & H3 & H4 & H5). simpl in *.
  split_and!; try done.
  - intros d' [->|Hd']%elem_of_cons; [|by apply H4].
    exists pid. split_and!; [done..|]. rewrite (H5 _ Hd). simpl. by rewrite lookup_insert_eq.
  - intros k [Hk1 Hk2]%not_elem_of_cons.
    rewrite (H5 _ Hk2). simpl. by rewrite lookup_insert_ne.
Qed.

(** The loop of [load] reads the ledger and nothing else of the world. *)
Lemma load_dirs_store (X : Extern) (rc : runc_Container) (dirs : list string)
    (c0 : Container) (w w' : World) :
  store w = store w' → (load_dirs X rc dirs c0 w).1 = (load_dirs X rc dirs c0 w').1.
Proof.
  intros Hs. revert c0. induction dirs as [|d dirs IH]; intros c0; [done|].
  simpl. run. rewrite Hs.
  destruct (runc_ReadPidFile (Join [d; "pid"]) (store w')) as [pid [e|]]; [done|].
  unfold newProcess. destruct (on_newProcess X (Base d) pid) as [e|]; [done|]. apply IH.
Qed.

Section Reading.
Context {SD : StateDirOps} (X : Extern).

Lemma load_store (r : OCIRuntime) (rc : runc_Container) (w w' : World) :
  store w = store w' → (load X r rc w).1 = (load X r rc w').1.
Proof.
  intros Hs. unfold load. run. rewrite Hs.
  destruct (ioutil_ReadDir _ (store w')) as [dirs [e|]]; [done|]. by apply load_dirs_store.
Qed.

Lemma List_loop_store (r : OCIRuntime) (rcs : list runc_Container)
    (acc : list (ptr Container)) (w w' : World) :
  store w = store w' → (List_loop X r rcs acc w).1 = (List_loop X r rcs acc w').1.
Proof.
  intros Hs. revert acc. induction rcs as [|rc rcs IH]; intros acc; [done|].
  simpl. run. pose proof (load_store r rc w w' Hs) as Hl.
  destruct (load_returns X r rc w) as (res & E & _).
  destruct (load_returns X r rc w') as (res' & E' & _).
  rewrite E, E' in *. simpl in Hl. injection Hl as <-.
  destruct res as [c [e|]]; [done|]. apply IH.
Qed.

Lemma List_loop_returns (r : OCIRuntime) (rcs : list runc_Container)
    (acc : list (ptr Container)) (w : World) :
  ∃ res, List_loop X r rcs acc w = (Returned res, w).
Proof.
  revert acc. induction rcs as [|rc rcs IH]; intros acc; [by eexists|].
  simpl. run. destruct (load_returns X r rc w) as ([c [e|]] & -> & _); [by eexists|]. apply IH.
Qed.

Lemma List_loop_success (r : OCIRuntime) (rcs : list runc_Container)
    (acc cs : list (ptr Container)) (w w' : World) :
  List_loop X r rcs acc w = (Returned (cs, None), w') →
  ∃ cs', cs = acc ++ cs'
         ∧ Forall2 (λ rc c, load X r rc w = (Returned (c, None), w)) rcs cs'.
Proof.
  revert acc. induction rcs as [|rc rcs IH]; intros acc.
  { simpl. intros [= <- <-]. exists []. by rewrite app_nil_r. }
  simpl. run. destruct (load_returns X r rc w) as ([c [e|]] & E & _); rewrite E; [done|].
  intros (cs' & -> & Hall)%IH. exists (c :: cs'). rewrite <- app_assoc. split; [done|].
  by constructor.
Qed.

End Reading.

(** [load] gives a process for an id only when the ledger has the slot of
    that name. *)
Lemma load_needs_slot (X : Extern) (r : OCIRuntime) (rc : runc_Container) (k : string)
    (w1 : World) (c2 : Container) (w2 : World) :
  fs (store w1) !! Join [ledger_Processes (Join [root r; rc_ID rc]); k] = None →
  load (SD:=ledger) X r rc w1 = (Returned (Some c2, None), w2) →
  c_processes c2 !! k = None.
Proof.
  intros Hgone. unfold load. run. set (dir := Join [root r; rc_ID rc]) in *.
  unfold ledger_Processes at 1. rewrite Join_clean by done. fold (ledger_Processes dir).
  destruct (ioutil_ReadDir _ (store w1)) as [dirs [e|]] eqn:E; [done|].
  intros Hl. pose proof (ReadDir_Base_NoDup _ _ _ E) as Hnd.
  destruct (load_dirs_spec X rc dirs _ c2 w1 w2 Hnd Hl) as (_ & _ & _ & _ & H5).
  destruct (decide (k ∈ Base <$> dirs)) as [Hin|Hout].
  - apply list_elem_of_fmap in Hin as (d & -> & Hd).
    destruct (ReadDir_elems _ _ _ E) as (_ & _ & Hin). apply Hin in Hd as [[x Hx] He].
    apply entry_of_inv in He as [_ He]. rewrite He in Hgone. by rewrite Hgone in Hx.
  - by rewrite (H5 _ Hout).
Qed.

(** ** StartProcess that returns a process, or cannot make its slot *)

Lemma StartProcess_success_inv {SD : StateDirOps} (X : Extern) (id : string) (r : OCIRuntime)
    (c : Container) (o : CreateProcessOpts) (w : World) (p : Process) (c' : ptr Container)
    (w' : World) :
  StartProcess X id r (Some c) o w = (Returned (Some p, None, c'), w') →
  c' = Some (Container_AddProcess c p false)
  ∧ ∃ slot st1, sd_NewProcess (c_StateDir c) (store w) = ((slot, None), st1)
      ∧ p_ID p = Base slot
      ∧ runc_ReadPidFile (Join [slot; id]) (store w') = (p_Pid p, None).
Proof.
  unfold StartProcess. run.
  destruct (sd_NewProcess (c_StateDir c) (store w)) as [[slot [e|]] st1]; [done|].
  unfold runc_ExecProcess. simpl.
  destruct (on_ExecProcess X _ _ _ _) as [[e|] written]; simpl.
  { by destruct (sd_DeleteProcess _ _ _). }
  match goal with |- context [runc_ReadPidFile ?f ?s] =>
    destruct (runc_ReadPidFile f s) as [pid [e|]] eqn:E end; simpl.
  { by destruct (sd_DeleteProcess _ _ _). }
  unfold newProcess. destruct (on_newProcess X _ pid) as [e|]; simpl.
  { by destruct (sd_DeleteProcess _ _ _). }
  intros [= <- <- <-]. split; [done|]. exists slot, st1. split_and!; try done.
Qed.

Lemma StartProcess_no_slot {SD : StateDirOps} (X : Extern) (id : string) (r : OCIRuntime)
    (c : Container) (o : CreateProcessOpts) (w : World) (e : error) :
  (sd_NewProcess (c_StateDir c) (store w)).1.2 = Some e →
  StartProcess X id r (Some c) o w
  = (Returned (nil_ptr, Some e, Some c),
     {| store := (sd_NewProcess (c_StateDir c) (store w)).2; calls := calls w; kills := kills w |}).
Proof.
  unfold StartProcess. run.
  destruct (sd_NewProcess (c_StateDir c) (store w)) as [[d err] st]. simpl. by intros ->.
Qed.

(** * The claims *)

(** ** Create *)

(** C1.  When the driver's create fails, Create does not return the
    driver's error and does not remove the ledger entry.  Its return
    statement [return nil, err] sets the named result [container] to nil
    before the deferred closure runs; the closure finds [err] set and calls
    [container.StateDir()] on the nil container.  The call panics, and the
    container-level ledger entry made for the id is still there. *)
Theorem Create_driver_error_panics (X : Extern) (r : OCIRuntime) (id : string)
    (o : CreateOpts) (w : World) (e : error) :
  allocates (root r) id w →
  (on_Create X (Create_slot r id w).2 id (Bundle o)
     (create_opts (Join [(Create_slot r id w).1; "pid"]) o)).1 = Some e →
  ∃ w', Create (SD:=ledger) X r id o w = (Panicked, w')
        ∧ exists_path (store w') (Join [root r; id]).
Proof.
  intros Ha Hfail. pose proof (Create_steps X r id o w Ha) as Hc.
  pose proof (Create_slot_keeps_entry r id w Ha) as [Hent _].
  destruct (Create_slot r id w) as [initDir w1]. simpl in *.
  destruct (runc_Create_world X id (Bundle o) (create_opts (Join [initDir; "pid"]) o) w1 _ Hent)
    as (w2 & Hrun & Hent2 & _).
  rewrite Hrun, Hfail in Hc. eauto.
Qed.

Lemma Create_driver_error_panics_witness :
  ∃ w', Create (SD:=ledger) refusing r_run "c1" o_c1 w_fresh = (Panicked, w')
        ∧ exists_path (store w') (Join [root r_run; "c1"]).
Proof.
  apply (Create_driver_error_panics refusing r_run "c1" o_c1 w_fresh
           (runc_Error "exit status 1")).
  - vm_compute. reflexivity.
  - vm_compute. reflexivity.
Defined.

(** The same call, run: the entry, its process collection and the slot
    are left behind, and the only driver call is the create. *)
Example Create_refused_leaves_entry :
  (Create (SD:=ledger) refusing r_run "c1" o_c1 w_fresh).1 = Panicked
  ∧ map_to_list (fs (store (Create (SD:=ledger) refusing r_run "c1" o_c1 w_fresh).2))
    = [("/run/oci/c1/processes/p0", Directory); ("/run/oci/c1/processes", Directory);
       ("/run/oci/c1", Directory); ("/run/oci", Directory)].
Proof. split; vm_compute; reflexivity. Qed.

(** C9.  Once the container-level entry is made, Create leaves in one of
    two ways: it returns the container with a nil error, or it panics.  No
    error is ever returned from a later exit: each of them (the driver's
    create failed, the PID file could not be read, no process record could
    be made) ends in the panic of the deferred closure, with the ledger
    entry still in place.  The driver was called once, to create: its
    delete is not called. *)
Theorem Create_error_exits_panic (X : Extern) (r : OCIRuntime) (id : string)
    (o : CreateOpts) (w : World) :
  allocates (root r) id w →
  match Create (SD:=ledger) X r id o w with
  | (Returned (Some c, None), w') => True
  | (Returned _, w') => False
  | (Panicked, w') =>
      exists_path (store w') (Join [root r; id])
      ∧ ∃ opts, calls w' = calls w ++ [call_Create id (Bundle o) opts]
  end.
Proof.
  intros Ha. pose proof (Create_steps X r id o w Ha) as Hc.
  pose proof (Create_slot_keeps_entry r id w Ha) as [Hent Hcalls].
  destruct (Create_slot r id w) as [initDir w1]. simpl in *.
  destruct (runc_Create_world X id (Bundle o) (create_opts (Join [initDir; "pid"]) o) w1 _ Hent)
    as (w2 & Hrun & Hent2 & Hcalls2 & _).
  rewrite Hrun in Hc. rewrite Hcalls in Hcalls2. rewrite Hc.
  destruct (on_Create X w1 id (Bundle o) _).1 as [e|]; [eauto|].
  destruct (runc_ReadPidFile _ _) as [pid [e|]]; [eauto|].
  destruct (on_newProcess X _ pid) as [e|]; [eauto|done].
Qed.

Lemma Create_error_exits_panic_witness :
  match Create (SD:=ledger) silent r_run "c1" o_c1 w_fresh with
  | (Returned (Some c, None), w') => True
  | (Returned _, w') => False
  | (Panicked, w') =>
      exists_path (store w') (Join [root r_run; "c1"])
      ∧ ∃ opts, calls w' = calls w_fresh ++ [call_Create "c1" (Bundle o_c1) opts]
  end.
Proof.
  apply (Create_error_exits_panic silent r_run "c1" o_c1 w_fresh).
  vm_compute. reflexivity.
Defined.

(** The two exits after a successful driver call, run: the driver wrote no
    PID file; no process record could be made. *)
Example Create_unreadable_pidfile_panics :
  (Create (SD:=ledger) silent r_run "c1" o_c1 w_fresh).1 = Panicked.
Proof. vm_compute. reflexivity. Qed.

Example Create_no_process_panics :
  (Create (SD:=ledger) no_process r_run "c1" o_c1 w_fresh).1 = Panicked
  ∧ fs (store (Create (SD:=ledger) no_process r_run "c1" o_c1 w_fresh).2)
      !! "/run/oci/c1/processes/p0/pid" = Some (File "4242").
Proof. split; vm_compute; reflexivity. Qed.

(** The successful exit, run. *)
Example Create_cooperative_returns :
  (Create (SD:=ledger) cooperative r_run "c1" o_c1 w_fresh).1
  = Returned (Some c1_created, None).
Proof. vm_compute. reflexivity. Qed.

(** ** SignalProcess *)

(** C2.  What SignalProcess does with a container at hand.  For an unknown
    process id it returns, without a panic and leaving the world as it
    was, the error that [fmt.Errorf] builds from the text "Make a Process
    Not Found error": an ad hoc error, not a declared one.  For a known id
    it sends the signal to the recorded PID and returns what the kernel
    answers; the ledger and the driver are not touched. *)
Theorem SignalProcess_lookup_then_kill (X : Extern) (r : OCIRuntime)
    (c : Container) (id : string) (sig : Z) (w : World) :
  match Container_GetProcess c id with
  | None =>
      ∃ e, SignalProcess X r (Some c) id sig w = (Returned (Some e), w)
           ∧ e = fmt_Errorf "Make a Process Not Found error"
           ∧ ad_hoc e = true ∧ e ≠ ErrRootEmpty
  | Some p =>
      ∃ w', SignalProcess X r (Some c) id sig w = (Returned (on_Kill X w (p_Pid p) sig), w')
            ∧ kills w' = kills w ++ [(p_Pid p, sig)]
            ∧ store w' = store w ∧ calls w' = calls w
  end.
Proof.
  unfold SignalProcess. run. destruct (Container_GetProcess c id) as [p|].
  - eexists. split; [reflexivity|]. done.
  - eexists. split; [reflexivity|]. done.
Qed.

(** ** New *)

(** C3.  The file declares [ErrRootEmpty], "runtime root cannot be an empty
    string", but [New] never returns it: for the empty root it hands out an
    executor like for any other, whose driver root is the relative path
    "runc".  No root makes [New] fail. *)
Theorem New_accepts_empty_root :
  New "" = Some r_empty
  ∧ ∀ root0 : string, ∃ r : OCIRuntime, New root0 = Some r ∧ root r = root0.
Proof. split; [done|]. intros root0. eexists. by split. Qed.

(** The executor with the empty root works: Create keeps its ledger in the
    relative directory "c1". *)
Example empty_root_executor_creates :
  ∃ c, (Create (SD:=ledger) cooperative r_empty "c1" o_c1 w_fresh).1 = Returned (Some c, None)
       ∧ c_StateDir c = "c1".
Proof. eexists. split; vm_compute; reflexivity. Qed.

(** ** Load after StartProcess *)

(** C4.  A container of the executor, extended by a successful
    StartProcess, cannot be loaded again when the identifier [id] of line
    151 is a name other than "pid".  StartProcess had the PID written to
    the slot directory joined with [id]; [load] reads the file "pid" of
    every slot, finds none in the new slot, and Load returns no container
    but an error.  (The ledger could make the slot, which had no file "pid"
    before, and the driver's state answers for the id it was asked
    about.) *)
Theorem Load_misses_started_process (X : Extern) (id : string) (r : OCIRuntime)
    (c : Container) (po : CreateProcessOpts) (w : World)
    (p : Process) (c' : ptr Container) (w2 : World) :
  name id → id ≠ "pid" →
  c_StateDir c = Join [root r; c_ID c] →
  allocates_slot (c_StateDir c) (store w) →
  fs (store w) !! Join [next_slot c w; "pid"] = None →
  (∀ w', rc_ID (on_State X w' (c_ID c)).1 = c_ID c) →
  StartProcess (SD:=ledger) X id r (Some c) po w = (Returned (Some p, None, c'), w2) →
  ∃ e, Load (SD:=ledger) X r (c_ID c) w2
       = (Returned (nil_ptr, Some e), log_call (call_State (c_ID c)) w2).
Proof.
  intros Hname Hid Hdir Hfree Hnopid Hst Hstart.
  pose proof (next_slot_no_pid c w) as Hslot. set (slot := next_slot c w) in *.
  pose proof (StartProcess_steps X id r c po w Hfree) as Hs. fold slot in Hs.
  destruct (runc_ExecProcess_store X (c_ID c) (spec po) (exec_opts (Join [slot; id]) po)
              (with_slot slot w)) as (w2' & Hrun & Hother & Hkeep).
  rewrite Hrun in Hs. rewrite Hs in Hstart. clear Hs Hrun.
  destruct (on_ExecProcess X _ _ _ _).1 as [e|]; [done|].
  destruct (runc_ReadPidFile _ _) as [pid [e|]]; [done|].
  destruct (on_newProcess X _ pid) as [e|]; [done|]. cbv zeta in Hstart. simplify_eq.
  assert (exists_path (store w2) slot) as F1.
  { apply Hkeep. unfold exists_path. simpl. by rewrite lookup_insert_eq. }
  assert (fs (store w2) !! Join [slot; "pid"] = None) as F2.
  { rewrite Hother.
    - simpl. by rewrite lookup_insert_ne.
    - simpl. intros E. apply Hid. by apply (Join_name_inj slot id "pid"). }
  unfold Load, runc_State. run.
  pose proof (Hst w2) as Hrc.
  destruct (on_State X w2 (c_ID c)) as [rc [e|]]; simpl in *; [eauto|].
  unfold load. run. rewrite Hrc, <- Hdir.
  unfold ledger_Processes at 1. rewrite Join_clean by done. fold (ledger_Processes (c_StateDir c)).
  destruct (decide (fs (store w2) !! ledger_Processes (c_StateDir c) = Some Directory)) as [Hp|Hp].
  - destruct (elem_of_ReadDir _ (store w2) slot Hp F1) as (dirs & -> & Hin).
    { apply entry_of_next_slot. }
    apply (load_dirs_fails X rc dirs _ _ slot Hin). simpl.
    unfold runc_ReadPidFile. rewrite F2. simpl. eauto.
  - destruct (ReadDir_not_Dir _ (store w2) Hp) as (e & ->). eauto.
Qed.

Lemma Load_misses_started_process_witness :
  ∃ e, Load (SD:=ledger) cooperative r_run (c_ID c1_created)
         (StartProcess (SD:=ledger) cooperative "c1" r_run (Some c1_created) po_sh w_c1).2
       = (Returned (nil_ptr, Some e),
          log_call (call_State (c_ID c1_created))
            (StartProcess (SD:=ledger) cooperative "c1" r_run (Some c1_created) po_sh w_c1).2).
Proof.
  apply (Load_misses_started_process cooperative "c1" r_run c1_created po_sh w_c1
           {| p_ID := "p1"; p_Pid := 4243 |} (Some c1_two)).
  - reflexivity.
  - done.
  - vm_compute. reflexivity.
  - vm_compute. reflexivity.
  - vm_compute. reflexivity.
  - intros w'. reflexivity.
  - vm_compute. reflexivity.
Defined.

(** The three calls, run with [id] bound to "c1": Create "c1", start one
    more process, load "c1".  The PID of the second process is in
    .../processes/p1/c1; the container has two processes; Load returns the
    error of reading .../processes/p1/pid. *)
Example Load_after_StartProcess_c1 :
  round_trip (SD:=ledger) cooperative "c1" r_run "c1" o_c1 po_sh w_fresh
  = Some (c1_two,
          (nil_ptr,
           Some (os_PathError "open" "/run/oci/c1/processes/p1/pid" "no such file or directory")))
  ∧ size (c_processes c1_two) = 2%nat.
Proof. split; vm_compute; reflexivity. Qed.

(** Were the identifier bound to "pid", Load would give back the container
    with its two processes, the one with the driver's init PID marked. *)
Example Load_after_StartProcess_pid :
  round_trip (SD:=ledger) cooperative "pid" r_run "c1" o_c1 po_sh w_fresh
  = Some (c1_two, (Some c1_two, None))
  ∧ marked_init c1_two = [ {| p_ID := "p0"; p_Pid := 4242 |} ].
Proof. split; vm_compute; reflexivity. Qed.

(** ** Delete *)

(** C5.  Delete calls the driver's delete once, with the container's id,
    and returns its answer.  When that answer is an error the ledger is as
    before; when it is not, nothing is left at or below the container's
    state directory, and the rest of the ledger is as before. *)
Theorem Delete_driver_then_ledger (X : Extern) (r : OCIRuntime) (c : Container) (w : World) :
  ∃ w', Delete (SD:=ledger) X r (Some c) w = (Returned (on_Delete X w (c_ID c)), w')
    ∧ calls w' = calls w ++ [call_Delete (c_ID c)]
    ∧ kills w' = kills w
    ∧ match on_Delete X w (c_ID c) with
      | Some _ => store w' = store w
      | None =>
          (∀ p, under (c_StateDir c) p → fs (store w') !! p = None)
          ∧ (∀ p, ¬ under (c_StateDir c) p → fs (store w') !! p = fs (store w) !! p)
      end.
Proof.
  unfold Delete, runc_Delete. run. destruct (on_Delete X w (c_ID c)) as [e|] eqn:E.
  - eexists. split; [reflexivity|]. done.
  - eexists. split; [reflexivity|]. simpl. repeat split; try done.
    + intros p Hp. by apply (os_RemoveAll_gone (c_StateDir c) (store w)).
    + intros p Hp. by apply (os_RemoveAll_other (c_StateDir c) (store w)).
Qed.

(** The scenario of the spec, run: Delete of "c1" empties the ledger and
    calls the driver's delete once; a refused delete leaves the ledger. *)
Example Delete_c1 :
  Delete (SD:=ledger) cooperative r_run (Some c1_created) w_c1
  = (Returned None,
     {| store := {| fs := {[ "/run/oci" := Directory ]}; next := 1 |};
        calls := calls w_c1 ++ [call_Delete "c1"]; kills := [] |})
  ∧ Delete (SD:=ledger) refusing r_run (Some c1_created) w_c1
    = (Returned (Some (runc_Error "exit status 1")), log_call (call_Delete "c1") w_c1).
Proof. split; vm_compute; reflexivity. Qed.

(** ** StartProcess *)

(** C6.  StartProcess on a container, when the ledger can make the slot.
    If the driver's exec returns an error, StartProcess returns that
    error, the container is as before, and nothing is left at or below the
    slot; the same holds for the slot on every other exit with an error.
    When there is no error, the returned process is in the container's
    process set, under its id, not marked init.  (The last statement names
    [container]; it is read as the parameter [c].) *)
Theorem StartProcess_rollback_and_attach (X : Extern) (id : string) (r : OCIRuntime)
    (c : Container) (o : CreateProcessOpts) (w : World) :
  let slot := next_slot c w in
  allocates_slot (c_StateDir c) (store w) →
  ∃ res w', StartProcess (SD:=ledger) X id r (Some c) o w = (Returned res, w')
    ∧ (∀ e, (on_ExecProcess X (with_slot slot w) (c_ID c) (spec o)
               (exec_opts (Join [slot; id]) o)).1 = Some e →
         res = (nil_ptr, Some e, Some c)
         ∧ ∀ q, under slot q → fs (store w') !! q = None)
    ∧ (is_Some res.1.2 → ∀ q, under slot q → fs (store w') !! q = None)
    ∧ (res.1.2 = None →
         ∃ p, res = (Some p, None, Some (Container_AddProcess c p false))
              ∧ c_processes (Container_AddProcess c p false) !! p_ID p = Some (p, false)
              ∧ Container_GetProcess (Container_AddProcess c p false) (p_ID p) = Some p).
Proof.
  intros slot Hfree. pose proof (StartProcess_steps X id r c o w Hfree) as Hs.
  fold slot in Hs.
  destruct (runc_ExecProcess_world X (c_ID c) (spec o) (exec_opts (Join [slot; id]) o)
              (with_slot slot w)) as (w2 & Hrun & _).
  rewrite Hrun in Hs. rewrite Hs. clear Hs Hrun.
  assert (∀ p : Process,
    c_processes (Container_AddProcess c p false) !! p_ID p = Some (p, false)
    ∧ Container_GetProcess (Container_AddProcess c p false) (p_ID p) = Some p) as Hadd.
  { intros p. unfold Container_GetProcess. simpl. by rewrite lookup_insert_eq. }
  destruct (on_ExecProcess X _ _ _ _).1 as [e|].
  { do 2 eexists. split; [reflexivity|]. simpl.
    split_and!; [intros e' [= <-]; split; [done|] |intros _|done]; apply rolled_back_gone. }
  destruct (runc_ReadPidFile _ _) as [pid [e|]].
  { do 2 eexists. split; [reflexivity|]. simpl.
    split_and!; [done|intros _; apply rolled_back_gone|done]. }
  destruct (on_newProcess X _ pid) as [e|].
  { do 2 eexists. split; [reflexivity|]. simpl.
    split_and!; [done|intros _; apply rolled_back_gone|done]. }
  do 2 eexists. split; [reflexivity|]. simpl.
  split_and!; [done|by intros [??]|]. intros _. eexists. split; [reflexivity|]. apply Hadd.
Qed.

Lemma StartProcess_rollback_and_attach_witness :
  ∃ res w', StartProcess (SD:=ledger) refusing "pid" r_run (Some c1_created) po_sh w_c1
            = (Returned res, w')
    ∧ (∀ e, (on_ExecProcess refusing (with_slot (next_slot c1_created w_c1) w_c1)
               (c_ID c1_created) (spec po_sh)
               (exec_opts (Join [next_slot c1_created w_c1; "pid"]) po_sh)).1 = Some e →
         res = (nil_ptr, Some e, Some c1_created)
         ∧ ∀ q, under (next_slot c1_created w_c1) q → fs (store w') !! q = None)
    ∧ (is_Some res.1.2 →
         ∀ q, under (next_slot c1_created w_c1) q → fs (store w') !! q = None)
    ∧ (res.1.2 = None →
         ∃ p, res = (Some p, None, Some (Container_AddProcess c1_created p false))
              ∧ c_processes (Container_AddProcess c1_created p false) !! p_ID p = Some (p, false)
              ∧ Container_GetProcess (Container_AddProcess c1_created p false) (p_ID p) = Some p).
Proof.
  apply (StartProcess_rollback_and_attach refusing "pid" r_run c1_created po_sh w_c1).
  vm_compute. reflexivity.
Defined.

(** Both ways out, run on "c1": a refused exec leaves the ledger as Create
    left it (and one slot number used); a successful one adds the process,
    not marked init. *)
Example StartProcess_c1 :
  (∃ w', StartProcess (SD:=ledger) refusing "pid" r_run (Some c1_created) po_sh w_c1
         = (Returned (nil_ptr, Some (runc_Error "exit status 1"), Some c1_created), w')
         ∧ fs (store w') = fs (store w_c1))
  ∧ (StartProcess (SD:=ledger) cooperative "pid" r_run (Some c1_created) po_sh w_c1).1
    = Returned (Some {| p_ID := "p1"; p_Pid := 4243 |}, None, Some c1_two).
Proof. split; [eexists; split|]; vm_compute; reflexivity. Qed.

(** ** List *)

(** C7.  List, when the driver enumerates [runcCs].  If the
    reconstruction of one of them fails, List returns the nil sequence and
    an error.  Otherwise it returns, with a nil error, one container for
    each of [runcCs], in their order: the one that [load] reconstructs. *)
Theorem List_all_or_nothing {SD : StateDirOps} (X : Extern) (r : OCIRuntime) (w : World)
    (runcCs : list runc_Container) :
  on_List X w = (runcCs, None) →
  let w1 := log_call call_List w in
  (Exists (load_fails X r w1) runcCs →
     ∃ e, List X r w = (Returned ([], Some e), w1))
  ∧ (¬ Exists (load_fails X r w1) runcCs →
     ∃ cs, List X r w = (Returned (cs, None), w1) ∧ Forall2 (loads X r w1) runcCs cs).
Proof.
  intros HL w1. unfold List, runc_List. run. rewrite HL. fold w1. split.
  - intros Hex. apply (List_loop_fails X r runcCs [] w1 Hex).
  - intros Hno. apply (List_loop_all X r runcCs [] w1 Hno).
Qed.

Lemma List_all_or_nothing_witness :
  (Exists (load_fails (SD:=ledger) cooperative r_run (log_call call_List w_c1))
     [{| rc_ID := "c1"; rc_Bundle := "/bundles/c1"; rc_Pid := 4242 |}] →
     ∃ e, List (SD:=ledger) cooperative r_run w_c1
          = (Returned ([], Some e), log_call call_List w_c1))
  ∧ (¬ Exists (load_fails (SD:=ledger) cooperative r_run (log_call call_List w_c1))
       [{| rc_ID := "c1"; rc_Bundle := "/bundles/c1"; rc_Pid := 4242 |}] →
     ∃ cs, List (SD:=ledger) cooperative r_run w_c1
           = (Returned (cs, None), log_call call_List w_c1)
           ∧ Forall2 (loads (SD:=ledger) cooperative r_run (log_call call_List w_c1))
               [{| rc_ID := "c1"; rc_Bundle := "/bundles/c1"; rc_Pid := 4242 |}] cs).
Proof.
  apply (List_all_or_nothing (SD:=ledger) cooperative r_run w_c1
           [{| rc_ID := "c1"; rc_Bundle := "/bundles/c1"; rc_Pid := 4242 |}]).
  reflexivity.
Defined.

(** When the driver's list fails, List returns its error. *)
Lemma List_driver_error {SD : StateDirOps} (X : Extern) (r : OCIRuntime) (w : World)
    (runcCs : list runc_Container) (e : error) :
  on_List X w = (runcCs, Some e) →
  List X r w = (Returned ([], Some e), log_call call_List w).
Proof. intros HL. unfold List, runc_List. run. by rewrite HL. Qed.

(** Both cases, run: with the ledger of "c1" the list has that container;
    with an empty ledger the reconstruction fails and so does List. *)
Example List_c1 :
  List (SD:=ledger) cooperative r_run w_c1
  = (Returned ([Some c1_created], None), log_call call_List w_c1)
  ∧ List (SD:=ledger) cooperative r_run w_fresh
    = (Returned ([], Some (os_PathError "open" "/run/oci/c1/processes" "no such file or directory")),
       log_call call_List w_fresh).
Proof. split; vm_compute; reflexivity. Qed.

(** ** The PID file handed to the driver *)

(** C8.  StartProcess, when the ledger can make the slot, calls the
    driver's exec once, and the PID file it hands over is the slot
    directory joined with the identifier [id] of line 151.  For a name
    other than "pid" that is not the file "pid" of the slot, which is the
    one that Create hands over ([Create_pidfile_target]) and that [load]
    reads. *)
Theorem StartProcess_pidfile_target (X : Extern) (id : string) (r : OCIRuntime)
    (c : Container) (o : CreateProcessOpts) (w : World) :
  let slot := next_slot c w in
  allocates_slot (c_StateDir c) (store w) →
  ∃ res w' opts, StartProcess (SD:=ledger) X id r (Some c) o w = (Returned res, w')
    ∧ calls w' = calls w ++ [call_ExecProcess (c_ID c) (spec o) opts]
    ∧ eo_PidFile opts = Join [slot; id]
    ∧ (name id → id ≠ "pid" → eo_PidFile opts ≠ Join [slot; "pid"]).
Proof.
  intros slot Hfree. pose proof (StartProcess_steps X id r c o w Hfree) as Hs.
  fold slot in Hs.
  destruct (runc_ExecProcess_world X (c_ID c) (spec o) (exec_opts (Join [slot; id]) o)
              (with_slot slot w)) as (w2 & Hrun & Hcalls & _).
  rewrite Hrun in Hs.
  assert (∃ res w', StartProcess (SD:=ledger) X id r (Some c) o w = (Returned res, w')
                    ∧ calls w' = calls w2) as (res & w' & -> & Hw').
  { rewrite Hs. destruct (on_ExecProcess X _ _ _ _).1 as [e|]; [eauto|].
    destruct (runc_ReadPidFile _ _) as [pid [e|]]; [eauto|].
    destruct (on_newProcess X _ pid) as [e|]; eauto. }
  exists res, w', (exec_opts (Join [slot; id]) o). split; [done|].
  split; [by rewrite Hw', Hcalls|]. split; [done|]. simpl.
  intros Hname Hne E. apply Hne. by apply (Join_name_inj slot id "pid").
Qed.

Lemma StartProcess_pidfile_target_witness :
  ∃ res w' opts,
    StartProcess (SD:=ledger) cooperative "c1" r_run (Some c1_created) po_sh w_c1
    = (Returned res, w')
    ∧ calls w' = calls w_c1 ++ [call_ExecProcess (c_ID c1_created) (spec po_sh) opts]
    ∧ eo_PidFile opts = Join [next_slot c1_created w_c1; "c1"]
    ∧ (name "c1" → "c1" ≠ "pid" → eo_PidFile opts ≠ Join [next_slot c1_created w_c1; "pid"]).
Proof.
  apply (StartProcess_pidfile_target cooperative "c1" r_run c1_created po_sh w_c1).
  vm_compute. reflexivity.
Defined.

(** The two calls, run: Create hands over .../p0/pid, StartProcess with
    [id] bound to "c1" hands over .../p1/c1. *)
Example pidfile_targets_c1 :
  calls (StartProcess (SD:=ledger) cooperative "c1" r_run (Some c1_created) po_sh w_c1).2
  = [call_Create "c1" "/bundles/c1" (create_opts "/run/oci/c1/processes/p0/pid" o_c1);
     call_ExecProcess "c1" "sh" (exec_opts "/run/oci/c1/processes/p1/c1" po_sh)].
Proof. vm_compute. reflexivity. Qed.

(** ** DeleteProcess *)

(** C10.  Whatever the state directory's DeleteProcess does to the ledger
    and whatever it returns, the executor's DeleteProcess returns nil; it
    makes no driver call and sends no signal. *)
Theorem DeleteProcess_always_nil {SD : StateDirOps} (r : OCIRuntime)
    (c : Container) (id : string) (w : World) :
  ∃ w', DeleteProcess r (Some c) id w = (Returned None, w')
    ∧ store w' = (sd_DeleteProcess (c_StateDir c) id (store w)).2
    ∧ calls w' = calls w ∧ kills w' = kills w.
Proof.
  unfold DeleteProcess. run.
  destruct (sd_DeleteProcess (c_StateDir c) id (store w)) as [err st].
  eexists. split; [reflexivity|]. done.
Qed.

(** With the ledger of the spec, the slot is gone afterwards. *)
Lemma DeleteProcess_ledger (r : OCIRuntime) (c : Container) (id : string) (w : World) :
  ∃ w', DeleteProcess (SD:=ledger) r (Some c) id w = (Returned None, w')
    ∧ ∀ q, under (Join [ledger_Processes (c_StateDir c); id]) q → fs (store w') !! q = None.
Proof.
  unfold DeleteProcess. run. eexists. split; [reflexivity|].
  intros q Hq. by apply (os_RemoveAll_gone _ (store w)).
Qed.

(** * Further properties of the executor *)

(** ** Create *)

(** X1.  When the container-level ledger entry cannot be allocated, Create
    returns the error of the allocation and no container.  This return
    statement stands before the [defer]: nothing is deferred yet, so there
    is no panic; the driver is not called and no signal is sent, and the
    ledger is as the failed allocation left it.  This holds for every
    implementation of the state directory. *)
Theorem Create_allocation_error {SD : StateDirOps} (X : Extern) (r : OCIRuntime) (id : string)
    (o : CreateOpts) (w : World) (e : error) :
  (NewStateDir (root r) id (store w)).1.2 = Some e →
  ∃ w', Create X r id o w = (Returned (nil_ptr, Some e), w')
    ∧ store w' = (NewStateDir (root r) id (store w)).2
    ∧ calls w' = calls w ∧ kills w' = kills w.
Proof.
  unfold Create, NewContainer. run.
  destruct (NewStateDir (root r) id (store w)) as [[d err] st]. simpl. intros ->.
  eexists. split; [reflexivity|]. done.
Qed.

Lemma Create_allocation_error_witness :
  ∃ w', Create (SD:=ledger) cooperative r_run "c1" o_c1 w_c1
        = (Returned (nil_ptr, Some (os_PathError "mkdir" "/run/oci/c1" "file exists")), w')
    ∧ store w' = (NewStateDir (StateDirOps:=ledger) (root r_run) "c1" (store w_c1)).2
    ∧ calls w' = calls w_c1 ∧ kills w' = kills w_c1.
Proof.
  apply (Create_allocation_error (SD:=ledger) cooperative r_run "c1" o_c1 w_c1).
  vm_compute. reflexivity.
Defined.

(** X2.  The successful path of Create.  The id is a name, the directory
    that root/<id> lies in is there, and nothing is at or below root/<id>.
    If the driver's create reports no error and writes [data] to the PID
    file it was handed, [data] reads as the number [pid], and the process
    record can be made, then Create returns a container and a nil error.
    The container has the id and the bundle asked for, its state directory
    is root/<id>, and its process set holds exactly one process: the one
    named after the slot, with the PID [pid], marked init.  The PID file
    is root/<id>/processes/<slot>/pid and holds [data]; the driver was
    called once, to create, with that file and the standard streams of the
    options; no signal was sent. *)
Theorem Create_returns_init_process (X : Extern) (r : OCIRuntime) (id : string) (o : CreateOpts)
    (w : World) (data : string) (pid : Z) :
  let entry := Join [root r; id] in
  let slot := slot_name (next (store w)) in
  let pidFile := entry +:+ "/processes/" +:+ slot +:+ "/pid" in
  name id → parent_exists entry (store w) = true → vacant entry (store w) →
  on_Create X (Create_slot r id w).2 id (Bundle o) (create_opts pidFile o) = (None, Some data) →
  Atoi data = Some pid →
  on_newProcess X slot pid = None →
  ∃ c w', Create (SD:=ledger) X r id o w = (Returned (Some c, None), w')
    ∧ c_ID c = id ∧ c_Bundle c = Bundle o ∧ c_StateDir c = entry
    ∧ c_processes c = {[ slot := ({| p_ID := slot; p_Pid := pid |}, true) ]}
    ∧ marked_init c = [ {| p_ID := slot; p_Pid := pid |} ]
    ∧ fs (store w') !! pidFile = Some (File data)
    ∧ calls w' = calls w ++ [call_Create id (Bundle o) (create_opts pidFile o)]
    ∧ kills w' = kills w.
Proof.
  intros entry slot pidFile Hid Hpar Hv Hdrv Hdata Hproc.
  assert (proper entry) as He by (by apply Join_proper).
  pose proof (layout_path entry (next (store w)) He) as Hpath. fold slot pidFile in Hpath.
  pose proof (Create_run X r id o w Hid Hpar Hv) as Hc. cbv zeta in Hc. fold entry in Hc.
  rewrite Hpath, Hdrv, Hdata in Hc. fold slot in Hc. rewrite Hproc in Hc.
  do 2 eexists. split; [exact Hc|]. simpl. split_and!; try done.
  - apply marked_init_init_container.
  - rewrite Hpath. by rewrite lookup_insert_eq.
Qed.

Lemma Create_returns_init_process_witness :
  ∃ c w', Create (SD:=ledger) cooperative r_run "c1" o_c1 w_fresh = (Returned (Some c, None), w')
    ∧ c_ID c = "c1" ∧ c_Bundle c = Bundle o_c1 ∧ c_StateDir c = Join [root r_run; "c1"]
    ∧ c_processes c
      = {[ slot_name (next (store w_fresh))
           := ({| p_ID := slot_name (next (store w_fresh)); p_Pid := 4242 |}, true) ]}
    ∧ marked_init c = [ {| p_ID := slot_name (next (store w_fresh)); p_Pid := 4242 |} ]
    ∧ fs (store w') !! (Join [root r_run; "c1"] +:+ "/processes/"
                         +:+ slot_name (next (store w_fresh)) +:+ "/pid")
      = Some (File "4242")
    ∧ calls w'
      = calls w_fresh
        ++ [call_Create "c1" (Bundle o_c1)
              (create_opts (Join [root r_run; "c1"] +:+ "/processes/"
                            +:+ slot_name (next (store w_fresh)) +:+ "/pid") o_c1)]
    ∧ kills w' = kills w_fresh.
Proof.
  apply (Create_returns_init_process cooperative r_run "c1" o_c1 w_fresh "4242" 4242).
  - reflexivity.
  - vm_compute. reflexivity.
  - vm_compute. reflexivity.
  - reflexivity.
  - vm_compute. reflexivity.
  - reflexivity.
Defined.



(** ** Create, then Load or Delete *)

(** X4.  Load gives back what Create returned.  After a Create that
    returned the container [c] in a place that was vacant, if the driver's
    state reports the container with its id, its bundle and the PID of its
    init process, Load of that id returns [c] itself, with a nil error; it
    calls the driver's state once and leaves the ledger as it is. *)
Theorem Load_after_Create (X : Extern) (r : OCIRuntime) (id : string) (o : CreateOpts)
    (w : World) (c : Container) (w1 : World) (rc : runc_Container) :
  name id → parent_exists (Join [root r; id]) (store w) = true →
  vacant (Join [root r; id]) (store w) →
  Create (SD:=ledger) X r id o w = (Returned (Some c, None), w1) →
  on_State X w1 id = (rc, None) → rc_ID rc = id → rc_Bundle rc = Bundle o →
  Forall (λ p, p_Pid p = rc_Pid rc) (marked_init c) →
  Load (SD:=ledger) X r id w1 = (Returned (Some c, None), log_call (call_State id) w1).
Proof.
  intros Hid Hpar Hv Hc Hst Hrid Hrb Hinit.
  destruct (Create_run_inv X r id o w c w1 Hid Hpar Hv Hc) as (data & pid & Hd & Hp & -> & Hs & _).
  set (entry := Join [root r; id]) in *.
  assert (proper entry) as He by (by apply Join_proper).
  pose proof (proj1 (vacant_spec _ _) Hv) as Hv'.
  assert (pid = rc_Pid rc) as Hpid.
  { rewrite marked_init_init_container in Hinit. by apply Forall_cons in Hinit as [? _]. }
  unfold Load, runc_State. run. rewrite Hst. simpl. unfold load. run.
  rewrite Hrid, Hrb. fold entry. unfold ledger_Processes at 1.
  rewrite Join_clean by done. fold (ledger_Processes entry).
  rewrite Hs, ReadDir_created by done. simpl.
  run. unfold runc_ReadPidFile. rewrite Hs. simpl. rewrite lookup_insert_eq, Hd. simpl.
  assert (Base (slot_of entry (next (store w))) = slot_name (next (store w))) as ->.
  { apply Base_Join, slot_name_name. }
  unfold newProcess. rewrite Hp. simpl. unfold init_container.
  by rewrite bool_decide_eq_true_2.
Qed.

Lemma Load_after_Create_witness :
  Load (SD:=ledger) cooperative r_run "c1" w_c1
  = (Returned (Some c1_created, None), log_call (call_State "c1") w_c1).
Proof.
  apply (Load_after_Create cooperative r_run "c1" o_c1 w_fresh c1_created w_c1
           {| rc_ID := "c1"; rc_Bundle := "/bundles/c1"; rc_Pid := 4242 |}).
  - reflexivity.
  - vm_compute. reflexivity.
  - vm_compute. reflexivity.
  - vm_compute. reflexivity.
  - reflexivity.
  - reflexivity.
  - reflexivity.
  - apply (bool_decide_unpack _). vm_compute. exact I.
Defined.

(** X5.  Delete takes back what Create put into the ledger.  After a
    Create that returned the container [c] in a place that was vacant, a
    Delete of [c] that the driver accepts leaves the files of the ledger
    exactly as they were before the Create: the entry, its process
    collection, the init slot and the PID file are gone, and nothing else
    has changed.  The driver's delete was called once, with the id. *)
Theorem Delete_undoes_Create (X : Extern) (r : OCIRuntime) (id : string) (o : CreateOpts)
    (w : World) (c : Container) (w1 : World) :
  name id → parent_exists (Join [root r; id]) (store w) = true →
  vacant (Join [root r; id]) (store w) →
  Create (SD:=ledger) X r id o w = (Returned (Some c, None), w1) →
  on_Delete X w1 id = None →
  ∃ w2, Delete (SD:=ledger) X r (Some c) w1 = (Returned None, w2)
    ∧ fs (store w2) = fs (store w)
    ∧ calls w2 = calls w1 ++ [call_Delete id] ∧ kills w2 = kills w.
Proof.
  intros Hid Hpar Hv Hc Hdel.
  destruct (Create_run_inv X r id o w c w1 Hid Hpar Hv Hc) as (data & pid & _ & _ & -> & Hs & _ & Hk).
  set (entry := Join [root r; id]) in *.
  assert (proper entry) as He by (by apply Join_proper).
  pose proof (proj1 (vacant_spec _ _) Hv) as Hv'.
  unfold Delete, runc_Delete. run. rewrite Hdel. simpl.
  eexists. split; [reflexivity|]. simpl. split; [|done].
  apply RemoveAll_restores; [done|]. intros p Hp. rewrite Hs. simpl.
  destruct (layout_under entry (next (store w)) He) as (U1 & U2 & U3 & _).
  rewrite !lookup_insert_ne; [done|by intros <-; apply Hp; try apply under_refl..].
Qed.

Lemma Delete_undoes_Create_witness :
  ∃ w2, Delete (SD:=ledger) cooperative r_run (Some c1_created) w_c1 = (Returned None, w2)
    ∧ fs (store w2) = fs (store w_fresh)
    ∧ calls w2 = calls w_c1 ++ [call_Delete "c1"] ∧ kills w2 = kills w_fresh.
Proof.
  apply (Delete_undoes_Create cooperative r_run "c1" o_c1 w_fresh c1_created w_c1).
  - reflexivity.
  - vm_compute. reflexivity.
  - vm_compute. reflexivity.
  - vm_compute. reflexivity.
  - reflexivity.
Defined.

(** X6.  A deleted container cannot be loaded.  For a container of the
    executor whose id is a name, after a Delete that the driver accepted,
    Load of its id returns no container but an error, even when the
    driver's state still answers for that id: the process collection that
    [load] reads is gone with the entry. *)
Theorem Load_after_Delete (X : Extern) (r : OCIRuntime) (c : Container) (w : World) :
  name (c_ID c) → c_StateDir c = Join [root r; c_ID c] →
  on_Delete X w (c_ID c) = None →
  rc_ID (on_State X (Delete (SD:=ledger) X r (Some c) w).2 (c_ID c)).1 = c_ID c →
  ∃ w1 e, Delete (SD:=ledger) X r (Some c) w = (Returned None, w1)
    ∧ Load (SD:=ledger) X r (c_ID c) w1
      = (Returned (nil_ptr, Some e), log_call (call_State (c_ID c)) w1).
Proof.
  intros Hid Hdir Hdel. unfold Delete at 1 2, runc_Delete. run. rewrite Hdel. simpl.
  set (w1 := {| store := _ |}). intros Hrc. exists w1.
  assert (fs (store w1) !! ledger_Processes (c_StateDir c) = None) as Hgone.
  { apply (os_RemoveAll_gone (c_StateDir c) (store w)). rewrite Hdir.
    apply under_Join; [by apply Join_proper|done]. }
  assert (∃ e, Load (SD:=ledger) X r (c_ID c) w1
               = (Returned (nil_ptr, Some e), log_call (call_State (c_ID c)) w1)) as [e He];
    [|by exists e].
  clearbody w1. unfold Load, runc_State. run.
  destruct (on_State X w1 (c_ID c)) as [rc [e|]]; simpl in *; [eauto|].
  unfold load. run. rewrite Hrc, <- Hdir.
  unfold ledger_Processes at 1. rewrite Join_clean by done. fold (ledger_Processes (c_StateDir c)).
  unfold ioutil_ReadDir. rewrite Hgone. simpl. eauto.
Qed.

Lemma Load_after_Delete_witness :
  ∃ w1 e, Delete (SD:=ledger) cooperative r_run (Some c1_created) w_c1 = (Returned None, w1)
    ∧ Load (SD:=ledger) cooperative r_run (c_ID c1_created) w1
      = (Returned (nil_ptr, Some e), log_call (call_State (c_ID c1_created)) w1).
Proof.
  apply (Load_after_Delete cooperative r_run c1_created w_c1).
  - reflexivity.
  - reflexivity.
  - reflexivity.
  - reflexivity.
Defined.

(** ** StartProcess *)

(** X7.  When the process slot cannot be allocated, StartProcess returns
    the error of the allocation and no process, and the container is as
    before.  This return statement stands before the [defer]: the driver
    is not called, no slot is deleted, no signal is sent, and the ledger is
    as the failed allocation left it.  This holds for every implementation
    of the state directory. *)
Theorem StartProcess_slot_error {SD : StateDirOps} (X : Extern) (id : string) (r : OCIRuntime)
    (c : Container) (o : CreateProcessOpts) (w : World) (e : error) :
  (sd_NewProcess (c_StateDir c) (store w)).1.2 = Some e →
  ∃ w', StartProcess X id r (Some c) o w = (Returned (nil_ptr, Some e, Some c), w')
    ∧ store w' = (sd_NewProcess (c_StateDir c) (store w)).2
    ∧ calls w' = calls w ∧ kills w' = kills w.
Proof. intros He. rewrite (StartProcess_no_slot X id r c o w e He). by eexists. Qed.

Lemma StartProcess_slot_error_witness :
  ∃ w', StartProcess (SD:=ledger) cooperative "pid" r_run (Some c1_created) po_sh w_fresh
        = (Returned (nil_ptr,
                     Some (os_PathError "mkdir" "/run/oci/c1/processes/p0"
                             "no such file or directory"),
                     Some c1_created), w')
    ∧ store w' = (sd_NewProcess (StateDirOps:=ledger) (c_StateDir c1_created) (store w_fresh)).2
    ∧ calls w' = calls w_fresh ∧ kills w' = kills w_fresh.
Proof.
  apply (StartProcess_slot_error (SD:=ledger) cooperative "pid" r_run c1_created po_sh w_fresh).
  vm_compute. reflexivity.
Defined.

(** X8.  A StartProcess that returns an error leaves the files of the
    ledger exactly as they were, and the container as it was.  This holds
    at every exit with an error (no slot, the driver's exec failed, the PID
    file could not be read, no process record), when nothing was at or
    below the place of the next slot and the identifier [id] of line 151
    is a name, so that the PID file lies in the slot. *)
Theorem StartProcess_error_restores_ledger (X : Extern) (id : string) (r : OCIRuntime)
    (c : Container) (o : CreateProcessOpts) (w : World) (e : error) (c' : ptr Container)
    (w' : World) :
  name id → vacant (next_slot c w) (store w) →
  StartProcess (SD:=ledger) X id r (Some c) o w = (Returned (nil_ptr, Some e, c'), w') →
  fs (store w') = fs (store w) ∧ c' = Some c.
Proof.
  intros Hid Hv Hs. pose proof (proj1 (vacant_spec _ _) Hv) as Hv'.
  set (slot := next_slot c w) in *.
  destruct (decide (allocates_slot (c_StateDir c) (store w))) as [Ha|Ha].
  - pose proof (StartProcess_steps X id r c o w Ha) as Hst. fold slot in Hst.
    destruct (runc_ExecProcess_store X (c_ID c) (spec o) (exec_opts (Join [slot; id]) o)
                (with_slot slot w)) as (w2 & Hrun & Hother & _).
    rewrite Hrun in Hst. rewrite Hst in Hs. clear Hst Hrun.
    assert (fs (store (rolled_back slot w2)) = fs (store w)) as Hback.
    { apply RemoveAll_restores; [done|]. intros q Hq. rewrite Hother.
      - simpl. rewrite lookup_insert_ne; [done|]. intros <-. apply Hq, under_refl.
      - simpl. intros ->. apply Hq. apply under_Join; [|done]. apply slot_proper. }
    destruct (on_ExecProcess X _ _ _ _).1 as [e1|]; [by simplify_eq|].
    destruct (runc_ReadPidFile _ _) as [pid [e1|]]; [by simplify_eq|].
    destruct (on_newProcess X _ pid) as [e1|]; [by simplify_eq|]. done.
  - unfold allocates_slot in Ha.
    destruct (ledger_NewProcess (c_StateDir c) (store w)).1.2 as [e1|] eqn:E; [|done].
    rewrite (StartProcess_no_slot (SD:=ledger) X id r c o w e1 E) in Hs.
    injection Hs as <- <- <-. split; [|done]. simpl.
    apply NewProcess_fails_fs. by rewrite E.
Qed.

Lemma StartProcess_error_restores_ledger_witness :
  fs (store (StartProcess (SD:=ledger) refusing "pid" r_run (Some c1_created) po_sh w_c1).2)
  = fs (store w_c1) ∧ Some c1_created = Some c1_created.
Proof.
  apply (StartProcess_error_restores_ledger refusing "pid" r_run c1_created po_sh w_c1
           (runc_Error "exit status 1")).
  - reflexivity.
  - vm_compute. reflexivity.
  - vm_compute. reflexivity.
Defined.

(** X9.  A process that StartProcess returned can be found and signalled
    under its id.  The id of the process is the name of the slot made for
    it; its PID is the number in the file that the driver wrote, the slot
    joined with the identifier [id] of line 151.  In the container as
    StartProcess left it, GetProcess with that id returns the process, and
    SignalProcess sends the signal to that PID and returns the kernel's
    answer. *)
Theorem StartProcess_then_signal (X : Extern) (id : string) (r : OCIRuntime) (c : Container)
    (o : CreateProcessOpts) (w : World) (p : Process) (c' : Container) (w' : World) (sig : Z) :
  StartProcess (SD:=ledger) X id r (Some c) o w = (Returned (Some p, None, Some c'), w') →
  p_ID p = slot_name (next (store w))
  ∧ (∃ data, fs (store w') !! Join [next_slot c w; id] = Some (File data)
             ∧ Atoi data = Some (p_Pid p))
  ∧ GetProcess r (Some c') (p_ID p) w' = (Returned (Some p), w')
  ∧ SignalProcess X r (Some c') (p_ID p) sig w'
    = (Returned (on_Kill X w' (p_Pid p) sig), log_kill (p_Pid p) sig w').
Proof.
  intros Hs. destruct (StartProcess_success_inv X id r c o w p _ w' Hs)
    as ([= ->] & slot & st1 & Hnew & Hid & Hread).
  simpl in Hnew. assert (allocates_slot (c_StateDir c) (store w)) as Ha.
  { unfold allocates_slot. by rewrite Hnew. }
  destruct (ledger_NewProcess_ok _ _ Ha) as [Hn _]. rewrite Hn in Hnew.
  injection Hnew as <- <-. fold (next_slot c w) in *.
  assert (Container_GetProcess (Container_AddProcess c p false) (p_ID p) = Some p) as Hget.
  { unfold Container_GetProcess. simpl. by rewrite lookup_insert_eq. }
  split_and!.
  - rewrite Hid. unfold next_slot. apply Base_Join, slot_name_name.
  - by apply ReadPidFile_ok.
  - unfold GetProcess. run. by rewrite Hget.
  - unfold SignalProcess. run. by rewrite Hget.
Qed.

Lemma StartProcess_then_signal_witness :
  p_ID {| p_ID := "p1"; p_Pid := 4243 |} = slot_name (next (store w_c1))
  ∧ (∃ data,
       fs (store (StartProcess (SD:=ledger) cooperative "pid" r_run (Some c1_created) po_sh w_c1).2)
         !! Join [next_slot c1_created w_c1; "pid"] = Some (File data)
       ∧ Atoi data = Some (p_Pid {| p_ID := "p1"; p_Pid := 4243 |}))
  ∧ GetProcess r_run (Some c1_two) (p_ID {| p_ID := "p1"; p_Pid := 4243 |})
      (StartProcess (SD:=ledger) cooperative "pid" r_run (Some c1_created) po_sh w_c1).2
    = (Returned (Some {| p_ID := "p1"; p_Pid := 4243 |}),
       (StartProcess (SD:=ledger) cooperative "pid" r_run (Some c1_created) po_sh w_c1).2)
  ∧ SignalProcess cooperative r_run (Some c1_two) (p_ID {| p_ID := "p1"; p_Pid := 4243 |}) 15
      (StartProcess (SD:=ledger) cooperative "pid" r_run (Some c1_created) po_sh w_c1).2
    = (Returned (on_Kill cooperative
                   (StartProcess (SD:=ledger) cooperative "pid" r_run (Some c1_created) po_sh w_c1).2
                   (p_Pid {| p_ID := "p1"; p_Pid := 4243 |}) 15),
       log_kill (p_Pid {| p_ID := "p1"; p_Pid := 4243 |}) 15
         (StartProcess (SD:=ledger) cooperative "pid" r_run (Some c1_created) po_sh w_c1).2).
Proof.
  apply (StartProcess_then_signal cooperative "pid" r_run c1_created po_sh w_c1
           {| p_ID := "p1"; p_Pid := 4243 |} c1_two).
  vm_compute. reflexivity.
Defined.

(** X10.  StartProcess does not touch the init marks.  In the container
    as a successful StartProcess leaves it, every process marked init was
    marked init before; and when the id of the new process was not in use
    in the container, every process that was marked init still is.  This
    holds for every implementation of the state directory. *)
Theorem StartProcess_keeps_init_marks {SD : StateDirOps} (X : Extern) (id : string)
    (r : OCIRuntime) (c : Container) (o : CreateProcessOpts) (w : World) (p : Process)
    (c' : Container) (w' : World) :
  StartProcess X id r (Some c) o w = (Returned (Some p, None, Some c'), w') →
  (∀ q, q ∈ marked_init c' → q ∈ marked_init c)
  ∧ (c_processes c !! p_ID p = None → ∀ q, q ∈ marked_init c → q ∈ marked_init c').
Proof.
  intros Hs. destruct (StartProcess_success_inv X id r c o w p _ w' Hs) as ([= ->] & _).
  split.
  - intros q [k Hk]%elem_of_marked_init. apply elem_of_marked_init. exists k.
    simpl in Hk. destruct (decide (k = p_ID p)) as [->|Hne].
    + by rewrite lookup_insert_eq in Hk.
    + by rewrite lookup_insert_ne in Hk.
  - intros Hnew q [k Hk]%elem_of_marked_init. apply elem_of_marked_init. exists k.
    simpl. rewrite lookup_insert_ne; [done|]. intros <-. by rewrite Hnew in Hk.
Qed.

Lemma StartProcess_keeps_init_marks_witness :
  (∀ q, q ∈ marked_init c1_two → q ∈ marked_init c1_created)
  ∧ (c_processes c1_created !! p_ID {| p_ID := "p1"; p_Pid := 4243 |} = None →
     ∀ q, q ∈ marked_init c1_created → q ∈ marked_init c1_two).
Proof.
  apply (StartProcess_keeps_init_marks (SD:=ledger) cooperative "pid" r_run c1_created po_sh w_c1
           {| p_ID := "p1"; p_Pid := 4243 |} c1_two
           (StartProcess (SD:=ledger) cooperative "pid" r_run (Some c1_created) po_sh w_c1).2).
  vm_compute. reflexivity.
Defined.

(** ** load, Load and List *)

(** X11.  What [load] reconstructs.  When [load] returns a container for
    the driver's descriptor [rc], the container has the id and the bundle
    of [rc] and the state directory root/<id>.  Its process set mirrors the
    entries of the process collection: for every entry there is the
    process named after it, with the PID read from the entry's file "pid",
    marked init exactly when that PID is the one the driver reports; and
    there is no other process.  So every process marked init has the PID
    that the driver reports.  This holds for every implementation of the
    state directory. *)
Theorem load_reconstructs {SD : StateDirOps} (X : Extern) (r : OCIRuntime)
    (rc : runc_Container) (w : World) (c : Container) (w' : World) :
  load X r rc w = (Returned (Some c, None), w') →
  c_ID c = rc_ID rc ∧ c_Bundle c = rc_Bundle rc ∧ c_StateDir c = Join [root r; rc_ID rc]
  ∧ ∃ dirs,
      ioutil_ReadDir (Join [sd_Processes (Join [root r; rc_ID rc])]) (store w) = (dirs, None)
      ∧ (∀ d, d ∈ dirs →
           ∃ pid, runc_ReadPidFile (Join [d; "pid"]) (store w) = (pid, None)
                  ∧ c_processes c !! Base d
                    = Some ({| p_ID := Base d; p_Pid := pid |}, bool_decide (pid = rc_Pid rc)))
      ∧ (∀ k pb, c_processes c !! k = Some pb → ∃ d, d ∈ dirs ∧ k = Base d)
      ∧ (∀ q, q ∈ marked_init c → p_Pid q = rc_Pid rc).
Proof.
  unfold load. run.
  destruct (ioutil_ReadDir _ (store w)) as [dirs [e|]] eqn:E; [done|].
  intros Hl. pose proof (ReadDir_Base_NoDup _ _ _ E) as Hnd.
  destruct (load_dirs_spec X rc dirs _ c w w' Hnd Hl) as (H1 & H2 & H3 & H4 & H5).
  simpl in *.
  assert (∀ k pb, c_processes c !! k = Some pb → ∃ d, d ∈ dirs ∧ k = Base d) as Hkeys.
  { intros k pb Hk. destruct (decide (k ∈ Base <$> dirs)) as [Hin|Hout].
    - apply list_elem_of_fmap in Hin as (d & -> & Hd). eauto.
    - rewrite (H5 _ Hout) in Hk. by rewrite lookup_empty in Hk. }
  split_and!; try done. exists dirs. split_and!; try done.
  - intros d Hd. destruct (H4 d Hd) as (pid & Hr & _ & Hp). eauto.
  - intros q [k Hk]%elem_of_marked_init. destruct (Hkeys _ _ Hk) as (d & Hd & ->).
    destruct (H4 d Hd) as (pid & _ & _ & Hp). rewrite Hp in Hk. injection Hk as <- Hb.
    simpl. by apply bool_decide_eq_true in Hb.
Qed.

Lemma load_reconstructs_witness :
  c_ID c1_created = "c1" ∧ c_Bundle c1_created = "/bundles/c1"
  ∧ c_StateDir c1_created = Join [root r_run; "c1"]
  ∧ ∃ dirs,
      ioutil_ReadDir (Join [sd_Processes (StateDirOps:=ledger) (Join [root r_run; "c1"])])
        (store w_c1) = (dirs, None)
      ∧ (∀ d, d ∈ dirs →
           ∃ pid, runc_ReadPidFile (Join [d; "pid"]) (store w_c1) = (pid, None)
                  ∧ c_processes c1_created !! Base d
                    = Some ({| p_ID := Base d; p_Pid := pid |}, bool_decide (pid = 4242%Z)))
      ∧ (∀ k pb, c_processes c1_created !! k = Some pb → ∃ d, d ∈ dirs ∧ k = Base d)
      ∧ (∀ q, q ∈ marked_init c1_created → p_Pid q = 4242%Z).
Proof.
  apply (load_reconstructs (SD:=ledger) cooperative r_run
           {| rc_ID := "c1"; rc_Bundle := "/bundles/c1"; rc_Pid := 4242 |} w_c1 c1_created w_c1).
  vm_compute. reflexivity.
Defined.

(** X12.  A process whose slot DeleteProcess has removed is not
    reconstructed.  After DeleteProcess of the id [k] on a container of
    the executor, whatever [load] returns for that container has no process
    under [k]: the in-memory container that DeleteProcess was called on is
    not changed by it, but the ledger that [load] reads is. *)
Theorem load_after_DeleteProcess (X : Extern) (r : OCIRuntime) (c : Container) (k : string)
    (w : World) (rc : runc_Container) (c2 : Container) (w2 : World) :
  c_StateDir c = Join [root r; rc_ID rc] →
  load (SD:=ledger) X r rc (DeleteProcess (SD:=ledger) r (Some c) k w).2
  = (Returned (Some c2, None), w2) →
  c_processes c2 !! k = None.
Proof.
  intros Hdir. apply load_needs_slot. rewrite <- Hdir.
  apply (os_RemoveAll_gone _ (store w)), under_refl.
Qed.

Lemma load_after_DeleteProcess_witness :
  c_processes c1_created !! "p1" = None.
Proof.
  apply (load_after_DeleteProcess cooperative r_run c1_two "p1"
           (StartProcess (SD:=ledger) cooperative "pid" r_run (Some c1_created) po_sh w_c1).2
           {| rc_ID := "c1"; rc_Bundle := "/bundles/c1"; rc_Pid := 4242 |} c1_created
           (DeleteProcess (SD:=ledger) r_run (Some c1_two) "p1"
              (StartProcess (SD:=ledger) cooperative "pid" r_run (Some c1_created) po_sh w_c1).2).2).
  - reflexivity.
  - vm_compute. reflexivity.
Defined.

(** X13.  Load only reads.  It always returns, never panics; it calls the
    driver's state once, with the id, and leaves the ledger and the signals
    as they were.  An error of the driver's state is returned as it is,
    with no container.  It returns a container or an error, never both and
    never neither.  Its result depends on the ledger and on the driver's
    answer alone: in any world with the same ledger and the same answer it
    returns the same.  This holds for every implementation of the state
    directory. *)
Theorem Load_reads_only {SD : StateDirOps} (X : Extern) (r : OCIRuntime) (id : string)
    (w : World) :
  ∃ res, Load X r id w = (Returned res, log_call (call_State id) w)
    ∧ (∀ e, (on_State X w id).2 = Some e → res = (nil_ptr, Some e))
    ∧ (res.2 = None → is_Some res.1) ∧ (is_Some res.2 → res.1 = None)
    ∧ (∀ w', store w' = store w → on_State X w' id = on_State X w id →
         (Load X r id w').1 = Returned res).
Proof.
  unfold Load, runc_State. run. destruct (on_State X w id) as [rc [e|]] eqn:E.
  - eexists. split; [reflexivity|]. simpl. split_and!; [by intros ? [= <-]|done|done|].
    intros w' _ ->. done.
  - destruct (load_returns X r rc (log_call (call_State id) w)) as (res & Hl & H1 & H2).
    exists res. rewrite Hl. split_and!; try done.
    intros w' Hs ->. rewrite <- (load_store X r rc (log_call (call_State id) w)) by done.
    by rewrite Hl.
Qed.

(** X14.  List only reads.  It always returns, never panics; it calls the
    driver's list once and leaves the ledger and the signals as they were.
    An error of the driver's list is returned as it is, with the nil
    sequence.  In any world with the same ledger and the same enumeration
    it returns the same.  This holds for every implementation of the state
    directory. *)
Theorem List_reads_only {SD : StateDirOps} (X : Extern) (r : OCIRuntime) (w : World) :
  ∃ res, List X r w = (Returned res, log_call call_List w)
    ∧ (∀ e, (on_List X w).2 = Some e → res = ([], Some e))
    ∧ (∀ w', store w' = store w → on_List X w' = on_List X w →
         (List X r w').1 = Returned res).
Proof.
  unfold List, runc_List. run. destruct (on_List X w) as [rcs [e|]] eqn:E.
  - eexists. split; [reflexivity|]. split; [by intros ? [= <-]|]. intros w' _ ->. done.
  - destruct (List_loop_returns X r rcs [] (log_call call_List w)) as (res & Hl).
    exists res. rewrite Hl. split_and!; try done.
    intros w' Hs ->. rewrite <- (List_loop_store X r rcs [] (log_call call_List w)) by done.
    by rewrite Hl.
Qed.

(** X15.  List and Load agree.  When List returns the containers [cs] for
    the enumeration [rcs], the container at the place of a descriptor [rc]
    is the one that Load of [rc]'s id returns, on the same ledger, when the
    driver's state answers with [rc].  This holds for every implementation
    of the state directory. *)
Theorem List_agrees_with_Load {SD : StateDirOps} (X : Extern) (r : OCIRuntime) (w : World)
    (rcs : list runc_Container) (cs : list (ptr Container)) (w1 : World)
    (i : nat) (rc : runc_Container) (w' : World) :
  on_List X w = (rcs, None) →
  List X r w = (Returned (cs, None), w1) →
  rcs !! i = Some rc →
  store w' = store w → on_State X w' (rc_ID rc) = (rc, None) →
  ∃ c, cs !! i = Some c
       ∧ Load X r (rc_ID rc) w' = (Returned (c, None), log_call (call_State (rc_ID rc)) w').
Proof.
  intros HL Hlist Hi Hs Hst. revert Hlist. unfold List, runc_List. run. rewrite HL.
  intros (cs' & -> & Hall)%List_loop_success. simpl in *.
  destruct (Forall2_lookup_l _ _ _ _ _ Hall Hi) as (c & Hc & Hload).
  exists c. split; [done|]. unfold Load, runc_State. run. rewrite Hst. simpl.
  pose proof (load_store X r rc (log_call (call_State (rc_ID rc)) w') (log_call call_List w)) as Heq.
  destruct (load_returns X r rc (log_call (call_State (rc_ID rc)) w')) as (res & Hl & _).
  rewrite Hl, Hload in *. simpl in Heq. by rewrite Heq.
Qed.

Lemma List_agrees_with_Load_witness :
  ∃ c, [Some c1_created] !! 0%nat = Some c
       ∧ Load (SD:=ledger) cooperative r_run
           (rc_ID {| rc_ID := "c1"; rc_Bundle := "/bundles/c1"; rc_Pid := 4242 |}) w_c1
         = (Returned (c, None),
            log_call (call_State (rc_ID {| rc_ID := "c1"; rc_Bundle := "/bundles/c1"; rc_Pid := 4242 |}))
              w_c1).
Proof.
  apply (List_agrees_with_Load (SD:=ledger) cooperative r_run w_c1
           [{| rc_ID := "c1"; rc_Bundle := "/bundles/c1"; rc_Pid := 4242 |}]
           [Some c1_created] (log_call call_List w_c1) 0
           {| rc_ID := "c1"; rc_Bundle := "/bundles/c1"; rc_Pid := 4242 |} w_c1).
  - reflexivity.
  - vm_compute. reflexivity.
  - reflexivity.
  - reflexivity.
  - reflexivity.
Defined.

(** ** Pause and Resume; the nil container; the driver's root *)

(** X16.  Pause and Resume pass through to the driver.  Each hands the
    container's id to the driver and returns the driver's answer, error or
    not.  After a Pause and a Resume the ledger and the signals are as
    before, the two driver calls are logged in that order, and [load]
    returns for every descriptor what it returned before.  This holds for
    every implementation of the state directory. *)
Theorem Pause_Resume_keep_ledger {SD : StateDirOps} (X : Extern) (r : OCIRuntime)
    (c : Container) (w : World) :
  ∃ w1 w2, Pause X r (Some c) w = (Returned (on_Pause X w (c_ID c)), w1)
    ∧ Resume X r (Some c) w1 = (Returned (on_Resume X w1 (c_ID c)), w2)
    ∧ store w2 = store w ∧ kills w2 = kills w
    ∧ calls w2 = calls w ++ [call_Pause (c_ID c); call_Resume (c_ID c)]
    ∧ ∀ rc, (load X r rc w2).1 = (load X r rc w).1.
Proof.
  do 2 eexists. split; [reflexivity|]. split; [reflexivity|]. simpl.
  split_and!; [done..|by rewrite <- app_assoc|]. intros rc. by apply load_store.
Qed.

(** X17.  On the nil container, Delete, Pause, Resume, StartProcess and
    DeleteProcess panic: each reads a field of the container ([c.ID] or
    [c.StateDir]) before anything else.  The world is as before: the driver
    is not called and the ledger is not touched. *)
Theorem nil_container_panics {SD : StateDirOps} (X : Extern) (id : string) (r : OCIRuntime)
    (o : CreateProcessOpts) (k : string) (w : World) :
  Delete X r nil_ptr w = (Panicked, w)
  ∧ Pause X r nil_ptr w = (Panicked, w)
  ∧ Resume X r nil_ptr w = (Panicked, w)
  ∧ StartProcess X id r nil_ptr o w = (Panicked, w)
  ∧ DeleteProcess r nil_ptr k w = (Panicked, w).
Proof. done. Qed.

(** X18.  The driver's root is among the places of state directories.
    [New] gives the driver the root directory root/runc, and [load] takes
    root/<id> as the state directory of the container [id]: for an id that
    is a name the two are the same directory exactly when the id is
    "runc". *)
Theorem driver_root_among_state_dirs (root0 id : string) (r : OCIRuntime) (rt : Runc) :
  New root0 = Some r → runc r = Some rt → name id →
  (Join [root r; id] = Root rt ↔ id = "runc").
Proof.
  intros [= <-] [= <-] Hid. simpl. split; [|by intros ->].
  intros E. by apply (Join_name_inj root0 id "runc").
Qed.

Lemma driver_root_among_state_dirs_witness :
  Join [root r_run; "runc"] = Root {| Root := "/run/oci/runc" |} ↔ "runc" = "runc".
Proof.
  apply (driver_root_among_state_dirs "/run/oci" "runc" r_run {| Root := "/run/oci/runc" |});
    reflexivity.
Defined.
